(** * goodnews.news: the news classifier, the digest scheduler and signup

    A shallow embedding of [backend/server.js], [api/cron/daily-digest.js]
    and the serverless signup handler, and the properties of the
    curation and scheduling pipeline proved over it.

    Conventions of the embedding.
    - A JavaScript string is a [string]; [includes], [slice] and the
      regular expressions are written out on it.  [toLowerCase] depends
      on the Unicode tables of the runtime and is a field of the
      environment [Env]; [asciiLower] is its restriction to ASCII text,
      used for the concrete examples.
    - A property that may be [null], [undefined] or missing is an
      [option]; [truthy] is the test JavaScript applies to it.
    - [async] code is sequential here: every [await] is a step of the
      monad [M], which threads the [World] (subscriber table, outbox,
      the requests and mails issued, the number of external calls made
      so far) and carries exceptions.
    - The outside world answers through oracles of [Env], indexed by the
      number of external calls made before: the news provider, faults
      of the store and of the mail service, and the projection of an
      instant into a time zone.
    - Character classes and lengths are those of ASCII text:
      [whitespace] is the ASCII part of [\s], and [String.length]
      counts bytes, which are the UTF-16 units of ASCII text.  A
      statement that depends on either assumes [isAscii] of the strings
      concerned.
    - [console.log] and [console.error] have no effect on any value and
      are left out. *)

From Stdlib Require Import String Ascii List ZArith Lia Bool Arith.
From Stdlib Require Import Permutation.
Import ListNotations.
Local Open Scope string_scope.
Local Open Scope list_scope.

Set Implicit Arguments.

(** ** JavaScript values *)

Module JS.

(** [!!v] for a property holding a string, [null] or [undefined]. *)
Definition truthy (v : option string) : bool :=
  match v with
  | Some s => negb (s =? "")
  | None => false
  end.

(** [v || d] for such a property. *)
Definition orElse (v : option string) (d : string) : string :=
  if truthy v then match v with Some s => s | None => d end else d.

(** [String.prototype.includes]: [kw] occurs in [s] as a substring. *)
Fixpoint includes (s kw : string) : bool :=
  if prefix kw s then true
  else match s with
       | EmptyString => false
       | String _ rest => includes rest kw
       end.

(** [s.slice(0, n)] on a string. *)
Definition sliceStr (n : nat) (s : string) : string := substring 0 n s.

(** [Array.prototype.some]. *)
Definition some {A} (p : A -> bool) (l : list A) : bool := existsb p l.

(** [a.slice(0, n)] on an array. *)
Definition slice {A} (n : nat) (l : list A) : list A := firstn n l.

(** [Array.prototype.sort] with a comparator.  The language requires
    the sort to be stable, so for a consistent comparator the result
    is determined; it is computed here by insertion from the right,
    an element going in front of the first one it does not compare
    greater than. *)
Fixpoint insertBy {A} (cmp : A -> A -> Z) (x : A) (l : list A) : list A :=
  match l with
  | [] => [x]
  | y :: ys => if (cmp x y <=? 0)%Z then x :: y :: ys
               else y :: insertBy cmp x ys
  end.

Definition sort {A} (cmp : A -> A -> Z) (l : list A) : list A :=
  fold_right (insertBy cmp) [] l.

(** A boolean used as a number. *)
Definition num (b : bool) : Z := if b then 1%Z else 0%Z.

(** A number that may be [NaN]; every comparison with [NaN] is false. *)
Definition number := option Z.

Definition strictEq (x : number) (k : Z) : bool :=
  match x with Some v => (v =? k)%Z | None => false end.
Definition ge (x : number) (k : Z) : bool :=
  match x with Some v => (k <=? v)%Z | None => false end.
Definition lt (x : number) (k : Z) : bool :=
  match x with Some v => (v <? k)%Z | None => false end.

(** The value of [new Date(text)]: a date read in the local zone of
    the process, or [Invalid Date]. *)
Inductive Date :=
| Valid (hours minutes : Z)
| Invalid.

Definition getHours (d : Date) : number :=
  match d with Valid h _ => Some h | Invalid => None end.
Definition getMinutes (d : Date) : number :=
  match d with Valid _ m => Some m | Invalid => None end.

(** What a [try] block ends with: a value, or a thrown error. *)
Inductive completion (A : Type) :=
| Normal (a : A)
| Throw (e : string).
Arguments Throw {A} e.

(** [Array.prototype.map] with a callback that may throw: the first
    throw ends the whole call. *)
Fixpoint mapThrowing {A B} (f : A -> completion B) (l : list A)
  : completion (list B) :=
  match l with
  | [] => Normal []
  | x :: xs =>
      match f x with
      | Throw e => Throw e
      | Normal y =>
          match mapThrowing f xs with
          | Throw e => Throw e
          | Normal ys => Normal (y :: ys)
          end
      end
  end.

(** [toLowerCase] on ASCII text. *)
Definition lowerChar (c : ascii) : ascii :=
  let n := nat_of_ascii c in
  if (65 <=? n)%nat && (n <=? 90)%nat then ascii_of_nat (n + 32) else c.

Fixpoint asciiLower (s : string) : string :=
  match s with
  | EmptyString => EmptyString
  | String c rest => String (lowerChar c) (asciiLower rest)
  end.

(** Regular expressions, as far as the source needs them, matched
    against a whole string ([^...$]) by derivatives. *)
Inductive regex :=
| Never
| Eps
| Class (p : ascii -> bool)
| Alt (r1 r2 : regex)
| Seq (r1 r2 : regex)
| Star (r : regex).

Definition Plus (r : regex) : regex := Seq r (Star r).

Fixpoint nullable (r : regex) : bool :=
  match r with
  | Never => false
  | Eps => true
  | Class _ => false
  | Alt r1 r2 => nullable r1 || nullable r2
  | Seq r1 r2 => nullable r1 && nullable r2
  | Star _ => true
  end.

Fixpoint deriv (c : ascii) (r : regex) : regex :=
  match r with
  | Never => Never
  | Eps => Never
  | Class p => if p c then Eps else Never
  | Alt r1 r2 => Alt (deriv c r1) (deriv c r2)
  | Seq r1 r2 =>
      if nullable r1
      then Alt (Seq (deriv c r1) r2) (deriv c r2)
      else Seq (deriv c r1) r2
  | Star r1 => Seq (deriv c r1) (Star r1)
  end.

(** [re.test(s)] for an anchored [re]. *)
Fixpoint test (re : regex) (s : string) : bool :=
  match s with
  | EmptyString => nullable re
  | String c rest => test (deriv c re) rest
  end.

Definition isChar (c : ascii) : ascii -> bool := fun x => Ascii.eqb x c.

Definition between (lo hi : ascii) : ascii -> bool :=
  fun x => (nat_of_ascii lo <=? nat_of_ascii x)%nat
           && (nat_of_ascii x <=? nat_of_ascii hi)%nat.

(** The class [\s], on ASCII: tab, line feed, vertical tab, form
    feed, carriage return, space.  In JavaScript [\s] also holds
    U+00A0, U+FEFF, U+2028, U+2029 and the space separators, none of
    which is ASCII. *)
Definition whitespace : ascii -> bool :=
  fun x => let n := nat_of_ascii x in
           ((9 <=? n)%nat && (n <=? 13)%nat) || (n =? 32)%nat.

(** [s.replace(/[^...]/g, '')]: the characters of the class stay. *)
Fixpoint keepChars (p : ascii -> bool) (s : string) : string :=
  match s with
  | EmptyString => EmptyString
  | String c rest => if p c then String c (keepChars p rest)
                     else keepChars p rest
  end.

End JS.
Import JS.

(** ** Data model *)

(** [article.source] as the provider sends it. *)
Record Source := { name : option string }.

(** A candidate: one element of [data.articles]. *)
Record Article := {
  title : option string;
  description : option string;
  url : option string;
  source : option Source;
  urlToImage : option string
}.

(** A digest item: what [fetchGoodNews] pushes onto [newsItems].  The
    cron job builds no [image] property; reading it gives [undefined]. *)
Record NewsItem := {
  item_title : option string;
  item_description : option string;
  item_url : option string;
  item_source : option string;
  item_image : option string;
  category : string
}.

(** One row of the table [subscribers] (schema.sql, without [id]). *)
Record Subscriber := {
  email : string;
  interests : list string;
  timezone : string;
  created_at : Z;
  updated_at : Z
}.

(** A call of [resend.emails.send].  Subject and HTML are functions of
    the arguments kept here and of the date. *)
Inductive Email :=
| Digest (to : string) (news : list NewsItem) (interests : list string)
| Welcome (to : string) (interests : list string).

(** The two provider endpoints [fetchGoodNews] asks. *)
Inductive Request :=
| TopHeadlines (category : string)
| Everything (q : string).

(** What a provider call comes to: [fetch] rejects, [response.json()]
    rejects, or a body is parsed, whose [articles] may be missing. *)
Inductive Response :=
| FetchRejects
| JsonRejects
| Body (articles : option (list Article)).

(** ** The environment *)

Class Env := {
  (** [String.prototype.toLowerCase] *)
  toLowerCase : string -> string;
  (** the answer of newsapi.org to the external call number [n] *)
  newsapi : nat -> Request -> Response;
  (** [new Date(now.toLocaleString('en-US', { timeZone }))]: [None]
      when [toLocaleString] throws a [RangeError] on the zone name *)
  localDate : Z -> string -> option Date;
  (** the external call number [n], a store request, comes back with
      [error] set *)
  supabaseError : nat -> bool;
  (** the external call number [n], a send, throws *)
  resendThrows : nat -> bool
}.

(** ** The world and the monad of handlers *)

(** A request made to the store. *)
Inductive Query :=
| SelectAll
| SelectSingle (email : string)
| Update (email : string) (interests : list string) (timezone : string)
         (updated_at : Z)
| Insert (row : Subscriber).

(** What a store request resolves to: [{ data, error }] with one of the
    two set. *)
Inductive reply (A : Type) :=
| Data (data : A)
| Failed (error : string).
Arguments Failed {A} error.

Record World := {
  tick : nat;                 (* external calls made so far *)
  table : list Subscriber;    (* the table [subscribers] *)
  queries : list Query;       (* store requests issued, oldest first *)
  outbox : list Email         (* send calls issued, oldest first *)
}.

Definition M (A : Type) : Type := World -> completion A * World.

Definition ret {A} (a : A) : M A := fun w => (Normal a, w).

Definition throw {A} (e : string) : M A := fun w => (Throw e, w).

Definition bind {A B} (m : M A) (k : A -> M B) : M B :=
  fun w => match m w with
           | (Normal a, w') => k a w'
           | (Throw e, w') => (Throw e, w')
           end.

(** [try { m } catch (e) { h e }] *)
Definition tryCatch {A} (m : M A) (h : string -> M A) : M A :=
  fun w => match m w with
           | (Normal a, w') => (Normal a, w')
           | (Throw e, w') => h e w'
           end.

(** A pure computation that may throw, run inside a handler. *)
Definition lift {A} (c : completion A) : M A := fun w => (c, w).

Notation "x <- m ;; k" := (bind m (fun x => k))
  (at level 61, m at next level, right associativity).
Notation "m ;;; k" := (bind m (fun _ => k))
  (at level 61, right associativity).

Definition elapse (w : World) : World :=
  {| tick := S (tick w); table := table w; queries := queries w;
     outbox := outbox w |}.

(** The world [n] external calls later, nothing else having changed. *)
Definition advance (n : nat) (w : World) : World :=
  {| tick := n + tick w; table := table w; queries := queries w;
     outbox := outbox w |}.

(** [for (const x of l) { acc = body acc x }] with [await]ed bodies. *)
Fixpoint forOf {A B} (l : list A) (body : B -> A -> M B) (acc : B) : M B :=
  match l with
  | [] => ret acc
  | x :: xs => acc' <- body acc x ;; forOf xs body acc'
  end.

(** ** The classifier *)

(** The keyword lists are the same literals in server.js and in
    daily-digest.js. *)
Definition positiveKeywords : list string := [
  "breakthrough"; "success"; "achieve"; "discover"; "innovate";
  "cure"; "saves"; "helped"; "donate"; "volunteer"; "milestone";
  "renewable"; "sustainable"; "recovery"; "celebrates"; "award";
  "research finds"; "scientists discover"; "new study"; "progress"
].

Definition excludeKeywords : list string := [
  "casino"; "gambling"; "bet"; "poker"; "slots"; "free spins";
  "death"; "dead"; "kill"; "murder"; "crash"; "disaster"; "tragedy";
  "war"; "attack"; "terror"; "bomb"; "shooting"; "violence";
  "scandal"; "fraud"; "scam"; "accused"; "arrest"; "prison";
  "crypto"; "bitcoin"; "nft"; "forex"; "trading signals";
  "weight loss"; "diet pill"; "supplement"; "cbd"; "thc";
  "click here"; "limited time"; "act now"; "buy now"; "discount";
  "sponsored"; "advertisement"; "promoted"; "partner content";
  "globenewswire"; "prnewswire"; "businesswire"; "accesswire"
].

(** Only server.js has this list. *)
Definition trustedSources : list string := [
  "bbc"; "npr"; "reuters"; "associated press"; "the guardian";
  "new york times"; "washington post"; "wired"; "ars technica";
  "the verge"; "techcrunch"; "nature"; "science"; "national geographic";
  "smithsonian"; "cnn"; "abc news"; "cbs news"; "nbc news"; "time";
  "forbes"; "bloomberg"; "espn"; "sports illustrated"
].

Definition categoryMap : list (string * string) := [
  ("tech", "technology");
  ("technology", "technology");
  ("science", "science");
  ("health", "health");
  ("sports", "sports");
  ("business", "business");
  ("entertainment", "entertainment");
  ("arts", "entertainment")
].

Fixpoint lookup (k : string) (m : list (string * string)) : option string :=
  match m with
  | [] => None
  | (k', v) :: rest => if k =? k' then Some v else lookup k rest
  end.

Section Classifier.
Context {E : Env}.

(** [`${article.title} ${article.description}`.toLowerCase()] *)
Definition textOf (t d : string) : string :=
  toLowerCase (t ++ " " ++ d).

(** [(article.source?.name || '').toLowerCase()] *)
Definition sourceOf (a : Article) : string :=
  toLowerCase
    (match source a with
     | Some s => orElse (name s) ""
     | None => ""
     end).

Definition hasPositive (text : string) : bool :=
  some (fun kw => includes text kw) positiveKeywords.

Definition hasExcluded (text src : string) : bool :=
  some (fun kw => includes text kw || includes src kw) excludeKeywords.

Definition isTrusted (src : string) : bool :=
  some (fun s => includes src s) trustedSources.

(** The callback of [data.articles.filter].  The inner [match] only
    names the two strings: past the first test both are present. *)
Definition keep (a : Article) : bool :=
  if negb (truthy (title a)) || negb (truthy (description a)) then false
  else match title a, description a with
       | Some t, Some d =>
           hasPositive (textOf t d)
           && negb (hasExcluded (textOf t d) (sourceOf a))
       | _, _ => false
       end.

(** The request sent for one interest.  [categoryMap] is read with
    its own eight keys; a tag that names a property every object
    inherits ("constructor", ...) is sent as a free-text query here. *)
Definition requestFor (interest : string) : Request :=
  match lookup (toLowerCase interest) categoryMap with
  | Some c => TopHeadlines c
  | None => Everything interest
  end.

(** [await fetch(...)] then [await response.json()]: one external
    call; the value is [data.articles]. *)
Definition fetchArticles (r : Request) : M (option (list Article)) :=
  fun w =>
    (match newsapi (tick w) r with
     | FetchRejects => Throw "fetch failed"
     | JsonRejects => Throw "invalid json"
     | Body articles => Normal articles
     end, elapse w).

(** The provider call number [n], made for [interest], fails: [fetch]
    or [response.json()] rejects. *)
Definition providerFails (n : nat) (interest : string) : Prop :=
  newsapi n (requestFor interest) = FetchRejects
  \/ newsapi n (requestFor interest) = JsonRejects.

End Classifier.

(** ** Mail and store *)

Section Services.
Context {E : Env}.

(** [await resend.emails.send(m)] *)
Definition send (m : Email) : M unit :=
  fun w =>
    (if resendThrows (tick w) then Throw "send failed" else Normal tt,
     {| tick := S (tick w); table := table w; queries := queries w;
        outbox := outbox w ++ [m] |}).

(** A store request: logged, then answered from the table unless the
    service is at fault. *)
Definition request {A} (q : Query)
           (answer : list Subscriber -> reply A * list Subscriber)
  : M (reply A) :=
  fun w =>
    let (r, t) := if supabaseError (tick w)
                  then (Failed "service unavailable", table w)
                  else answer (table w) in
    (Normal r,
     {| tick := S (tick w); table := t; queries := queries w ++ [q];
        outbox := outbox w |}).

(** [supabase.from('subscribers').select('*')] *)
Definition selectAll : M (reply (list Subscriber)) :=
  request SelectAll (fun t => (Data t, t)).

(** [.select('email').eq('email', e).single()]: an error unless
    exactly one row has that email (compared as it is written). *)
Definition selectSingle (e : string) : M (reply string) :=
  request (SelectSingle e)
    (fun t => match filter (fun r => email r =? e) t with
              | [r] => (Data (email r), t)
              | _ => (Failed "PGRST116", t)
              end).

(** A row with the three columns an update sets. *)
Definition withPreferences (i : list string) (tz : string) (at_ : Z)
           (r : Subscriber) : Subscriber :=
  {| email := email r; interests := i; timezone := tz;
     created_at := created_at r; updated_at := at_ |}.

(** [.update({ interests, timezone, updated_at }).eq('email', e)] *)
Definition update (e : string) (i : list string) (tz : string) (at_ : Z)
  : M (reply unit) :=
  request (Update e i tz at_)
    (fun t => (Data tt,
               map (fun r => if email r =? e
                             then withPreferences i tz at_ r else r) t)).

(** [.insert([row])]; [email] is UNIQUE in schema.sql.  The handlers
    set [created_at]; [updated_at] gets the default [NOW()] of the
    schema, taken to be the same instant. *)
Definition insert (row : Subscriber) : M (reply unit) :=
  request (Insert row)
    (fun t => if existsb (fun r => email r =? email row) t
              then (Failed "23505", t)
              else (Data tt, t ++ [row])).

End Services.

(** ** HTTP responses *)

Inductive Payload :=
| Message (message : string)
| Error (error : string)
| DigestComplete (sentCount : nat)   (* `Daily digest complete. Sent ${sentCount} emails.` *)
| Empty.

Record HttpResponse := { status : nat; json : Payload }.

(** ** Validation of a signup

    [isValidEmail] and [sanitizeInterests] are the same in server.js
    and in the serverless signup handler. *)

(** The body of a signup request, for requests whose [email] and
    [timezone] are strings or absent and whose [interests] is an array
    of strings or no array.  Other JSON values, which the code would
    turn into strings (an array given as [timezone], say), are outside
    the model. *)
Record SignupBody := {
  body_email : option string;
  body_interests : option (list string);   (* [None]: not an array *)
  body_timezone : option string
}.

(** [/^[^\s@]+@[^\s@]+\.[^\s@]+$/] *)
Definition emailRegex : regex :=
  let plain := Class (fun c => negb (whitespace c || isChar "@" c)) in
  Seq (Plus plain)
      (Seq (Class (isChar "@"))
           (Seq (Plus plain) (Seq (Class (isChar ".")) (Plus plain)))).

(** For a string; the length is [email.length] on ASCII text. *)
Definition isValidEmail (email : string) : bool :=
  test emailRegex email && (String.length email <=? 254)%nat.

Section Validation.
Context {E : Env}.

Definition sanitizeInterests (interests : option (list string))
  : list string :=
  match interests with
  | None => []
  | Some l =>
      filter (fun i => (0 <? String.length i)%nat)
        (map (fun i =>
                sliceStr 50
                  (keepChars (fun c => between "a" "z" c
                                       || between "0" "9" c
                                       || whitespace c || isChar "-" c)
                             (toLowerCase i)))
             (slice 10 l))
  end.

(** [String(timezone || 'America/New_York').slice(0, 50)], for a
    timezone that is a string or absent. *)
Definition cleanTimezoneOf (timezone : option string) : string :=
  sliceStr 50 (orElse timezone "America/New_York").

End Validation.

(** ** backend/server.js *)

Module Server.
Section WithEnv.
Context {E : Env}.

(** The comparator of [goodArticles.sort]: [bTrusted - aTrusted]. *)
Definition byTrust (a b : Article) : Z :=
  (num (isTrusted (sourceOf b)) - num (isTrusted (sourceOf a)))%Z.

(** [goodArticles] once filtered and sorted. *)
Definition goodArticles (articles : list Article) : list Article :=
  sort byTrust (filter keep articles).

(** The callback of [.map]; [article.source.name] throws when the
    article has no [source]. *)
Definition toItem (interest : string) (article : Article)
  : completion NewsItem :=
  match source article with
  | None => Throw "TypeError"
  | Some s =>
      Normal {| item_title := title article;
                item_description := description article;
                item_url := url article;
                item_source := name s;
                item_image := urlToImage article;
                category := interest |}
  end.

(** What one interest adds to [newsItems], from [data.articles]. *)
Definition selectGoodNews (interest : string) (articles : list Article)
  : completion (list NewsItem) :=
  mapThrowing (toItem interest) (slice 2 (goodArticles articles)).

(** The body of the loop over the interests, [try] and [catch]
    included. *)
Definition forInterest (newsItems : list NewsItem) (interest : string)
  : M (list NewsItem) :=
  tryCatch
    (articles <- fetchArticles (requestFor interest) ;;
     match articles with
     | Some l =>
         items <- lift (selectGoodNews interest l) ;;
         ret (newsItems ++ items)
     | None => ret newsItems
     end)
    (fun _ => ret newsItems).

(** What one turn of the loop adds to [newsItems] when its provider
    call is the external call number [n]; used to state what
    [fetchGoodNews] returns. *)
Definition harvest (interest : string) (n : nat) : list NewsItem :=
  match newsapi n (requestFor interest) with
  | Body (Some l) =>
      match selectGoodNews interest l with
      | Normal items => items
      | Throw _ => []
      end
  | _ => []
  end.

Fixpoint harvestAll (tags : list string) (n : nat) : list NewsItem :=
  match tags with
  | [] => []
  | t :: ts => harvest t n ++ harvestAll ts (S n)
  end.

Definition fetchGoodNews (interests : list string) : M (list NewsItem) :=
  forOf (slice 3 interests) forInterest [].

Definition sendDailyDigest (subscriber : Subscriber) : M unit :=
  tryCatch
    (news <- fetchGoodNews (interests subscriber) ;;
     if (length news =? 0)%nat then ret tt
     else send (Digest (email subscriber) news (interests subscriber)))
    (fun _ => ret tt).

(** The callback of [subscribers.filter], [try] and [catch] included. *)
Definition isDue (now : Z) (sub : Subscriber) : bool :=
  match localDate now (timezone sub) with
  | Some subscriberTime =>
      strictEq (getHours subscriberTime) 7
      && ge (getMinutes subscriberTime) 30
      && lt (getMinutes subscriberTime) 45
  | None => false
  end.

Definition getSubscribersForCurrentHour (now : Z) : M (list Subscriber) :=
  r <- selectAll ;;
  match r with
  | Failed _ => ret []
  | Data subscribers => ret (filter (isDue now) subscribers)
  end.

(** The callback of [cron.schedule('*/15 * * * *', ...)]. *)
Definition schedule (now : Z) : M unit :=
  subscribers <- getSubscribersForCurrentHour now ;;
  forOf subscribers (fun _ subscriber => sendDailyDigest subscriber) tt.

Definition sendWelcomeEmail (email : string) (interests : list string)
  : M unit :=
  tryCatch (send (Welcome email interests)) (fun _ => ret tt).

(** [app.post('/api/signup', ...)], past the rate limiter, for a
    request with a body: [body] is [req.body]. *)
Definition signup (body : SignupBody) (now : Z) : M HttpResponse :=
  tryCatch
    (let email := orElse (body_email body) "" in
     if negb (truthy (body_email body)) || negb (isValidEmail email)
     then ret {| status := 400; json := Error "Valid email required" |}
     else
       let cleanInterests := sanitizeInterests (body_interests body) in
       if (length cleanInterests =? 0)%nat
       then ret {| status := 400;
                   json := Error "At least one interest required" |}
       else
         let cleanTimezone := cleanTimezoneOf (body_timezone body) in
         existing <- selectSingle email ;;
         match existing with
         | Data _ =>
             r <- update email cleanInterests cleanTimezone now ;;
             match r with
             | Failed error => throw error
             | Data _ =>
                 ret {| status := 200;
                        json := Message "Preferences updated successfully!" |}
             end
         | Failed _ =>
             r <- insert {| email := email; interests := cleanInterests;
                            timezone := cleanTimezone;
                            created_at := now; updated_at := now |} ;;
             match r with
             | Failed error => throw error
             | Data _ =>
                 sendWelcomeEmail email cleanInterests ;;;
                 ret {| status := 200;
                        json := Message "Successfully subscribed!" |}
             end
         end)
    (fun _ =>
       ret {| status := 500;
              json := Error "Failed to subscribe. Please try again." |}).

(** The same route from [req.body] as it arrives: without a body
    the destructuring at the head of the [try] throws, and the [catch]
    answers. *)
Definition receive (reqBody : option SignupBody) (now : Z)
  : M HttpResponse :=
  match reqBody with
  | Some body => signup body now
  | None =>
      ret {| status := 500;
             json := Error "Failed to subscribe. Please try again." |}
  end.

End WithEnv.
End Server.

(** ** api/cron/daily-digest.js *)

Module Cron.
Section WithEnv.
Context {E : Env}.

(** [goodArticles]: filtered, and not sorted in this file. *)
Definition goodArticles (articles : list Article) : list Article :=
  filter keep articles.

Definition toItem (interest : string) (article : Article)
  : completion NewsItem :=
  match source article with
  | None => Throw "TypeError"
  | Some s =>
      Normal {| item_title := title article;
                item_description := description article;
                item_url := url article;
                item_source := name s;
                item_image := None;
                category := interest |}
  end.

Definition selectGoodNews (interest : string) (articles : list Article)
  : completion (list NewsItem) :=
  mapThrowing (toItem interest) (slice 2 (goodArticles articles)).

Definition forInterest (newsItems : list NewsItem) (interest : string)
  : M (list NewsItem) :=
  tryCatch
    (articles <- fetchArticles (requestFor interest) ;;
     match articles with
     | Some l =>
         items <- lift (selectGoodNews interest l) ;;
         ret (newsItems ++ items)
     | None => ret newsItems
     end)
    (fun _ => ret newsItems).

(** What one turn of the loop adds to [newsItems] when its provider
    call is the external call number [n]; used to state what
    [fetchGoodNews] returns. *)
Definition harvest (interest : string) (n : nat) : list NewsItem :=
  match newsapi n (requestFor interest) with
  | Body (Some l) =>
      match selectGoodNews interest l with
      | Normal items => items
      | Throw _ => []
      end
  | _ => []
  end.

Fixpoint harvestAll (tags : list string) (n : nat) : list NewsItem :=
  match tags with
  | [] => []
  | t :: ts => harvest t n ++ harvestAll ts (S n)
  end.

Definition fetchGoodNews (interests : list string) : M (list NewsItem) :=
  forOf (slice 3 interests) forInterest [].

(** [hour === 7 && minute >= 30 && minute < 45] *)
Definition inWindow (hour minute : number) : bool :=
  strictEq hour 7 && ge minute 30 && lt minute 45.

(** The statements the window test guards; the value is [sentCount]
    after them. *)
Definition deliver (sentCount : nat) (subscriber : Subscriber) : M nat :=
  news <- fetchGoodNews (interests subscriber) ;;
  if (0 <? length news)%nat then
    send (Digest (email subscriber) news (interests subscriber)) ;;;
    ret (S sentCount)
  else ret sentCount.

(** The body of the loop over the subscribers, [try] and [catch]
    included; the value is [sentCount] after it. *)
Definition forSubscriber (now : Z) (sentCount : nat)
           (subscriber : Subscriber) : M nat :=
  tryCatch
    (match localDate now (timezone subscriber) with
     | None => throw "RangeError"
     | Some subscriberTime =>
         let hour := getHours subscriberTime in
         let minute := getMinutes subscriberTime in
         if inWindow hour minute then deliver sentCount subscriber
         else ret sentCount
     end)
    (fun _ => ret sentCount).

(** Whether that body reaches the guarded statements; used to state
    when a subscriber is due. *)
Definition isDue (now : Z) (subscriber : Subscriber) : bool :=
  match localDate now (timezone subscriber) with
  | Some subscriberTime =>
      inWindow (getHours subscriberTime) (getMinutes subscriberTime)
  | None => false
  end.

Definition handler (authorized : bool) (now : Z) : M HttpResponse :=
  if negb authorized
  then ret {| status := 401; json := Error "Unauthorized" |}
  else
    tryCatch
      (r <- selectAll ;;
       match r with
       | Failed e => throw e
       | Data subscribers =>
           sentCount <- forOf subscribers (forSubscriber now) 0%nat ;;
           ret {| status := 200; json := DigestComplete sentCount |}
       end)
      (fun e => ret {| status := 500; json := Error e |}).

End WithEnv.
End Cron.

(** ** The serverless signup handler *)

Module Signup.
Section WithEnv.
Context {E : Env}.

Inductive Method := OPTIONS | POST | Other.

(** The CORS headers set first are the same on every path.  [body]
    is [req.body], for a request that has one. *)
Definition handler (method : Method) (body : SignupBody) (now : Z)
  : M HttpResponse :=
  match method with
  | OPTIONS => ret {| status := 200; json := Empty |}
  | Other => ret {| status := 405; json := Error "Method not allowed" |}
  | POST =>
      tryCatch
        (let email := orElse (body_email body) "" in
         if negb (truthy (body_email body)) || negb (isValidEmail email)
         then ret {| status := 400; json := Error "Valid email required" |}
         else
           let cleanInterests := sanitizeInterests (body_interests body) in
           if (length cleanInterests =? 0)%nat
           then ret {| status := 400;
                       json := Error "At least one interest required" |}
           else
             let cleanTimezone := cleanTimezoneOf (body_timezone body) in
             existing <- selectSingle email ;;
             match existing with
             | Data _ =>
                 r <- update email cleanInterests cleanTimezone now ;;
                 match r with
                 | Failed error => throw error
                 | Data _ =>
                     ret {| status := 200;
                            json := Message "Preferences updated successfully!" |}
                 end
             | Failed _ =>
                 r <- insert {| email := email; interests := cleanInterests;
                                timezone := cleanTimezone;
                                created_at := now; updated_at := now |} ;;
                 match r with
                 | Failed error => throw error
                 | Data _ =>
                     send (Welcome email cleanInterests) ;;;
                     ret {| status := 200;
                            json := Message "Successfully subscribed!" |}
                 end
             end)
        (fun _ =>
           ret {| status := 500;
                  json := Error "Failed to subscribe. Please try again." |})
  end.

(** The handler from [req.body] as it arrives: the method is looked
    at first; for a POST without a body the destructuring at the head
    of the [try] throws, and the [catch] answers. *)
Definition receive (method : Method) (reqBody : option SignupBody)
           (now : Z) : M HttpResponse :=
  match method, reqBody with
  | POST, Some body => handler POST body now
  | POST, None =>
      ret {| status := 500;
             json := Error "Failed to subscribe. Please try again." |}
  | OPTIONS, _ => ret {| status := 200; json := Empty |}
  | Other, _ => ret {| status := 405; json := Error "Method not allowed" |}
  end.

End WithEnv.
End Signup.

(** ** Notions used in the statements *)

Section Vocabulary.
Context {E : Env}.

(** A candidate is dropped: the filter rejects it, it is not among the
    articles picked from any candidate list, and no item built from it
    is among the items of an interest or in what [fetchGoodNews]
    returns, in either entry point. *)
Definition dropped (a : Article) : Prop :=
  keep a = false
  /\ (forall l, ~ In a (Server.goodArticles l))
  /\ (forall l, ~ In a (Cron.goodArticles l))
  /\ (forall interest l items it,
        Server.selectGoodNews interest l = Normal items ->
        Server.toItem interest a = Normal it -> ~ In it items)
  /\ (forall interest l items it,
        Cron.selectGoodNews interest l = Normal items ->
        Cron.toItem interest a = Normal it -> ~ In it items)
  /\ (forall interests w items w' interest it,
        Server.fetchGoodNews interests w = (Normal items, w') ->
        Server.toItem interest a = Normal it -> ~ In it items)
  /\ (forall interests w items w' interest it,
        Cron.fetchGoodNews interests w = (Normal items, w') ->
        Cron.toItem interest a = Normal it -> ~ In it items).

End Vocabulary.

(** ** Sample data for the examples *)

Definition article (t d src : string) : Article :=
  {| title := Some t; description := Some d;
     url := Some "https://example.org/story";
     source := Some {| name := Some src |}; urlToImage := None |}.

Definition reutersCure : Article :=
  article "Scientists discover breakthrough cure"
          "research finds new treatment" "Reuters".

Definition blogRecovery : Article :=
  article "Local clinic celebrates recovery milestone"
          "Volunteers helped hundreds of patients" "Daily Blog".

Definition cryptoBreakthrough : Article :=
  article "Breakthrough for crypto wallets"
          "A new study of payment apps" "Daily Blog".

Definition betterWorld : Article :=
  article "A better world" "Volunteers achieve a milestone"
          "Nighttime Gazette".

Definition alphabetAward : Article :=
  article "Alphabet soup wins award" "A new study of school lunches"
          "Daily Blog".

Definition deadlineSuccess : Article :=
  article "Deadline met" "A success for the volunteers" "Daily Blog".

Definition blogGarden : Article :=
  article "Town garden project a success" "Neighbours donate tools"
          "Village Voice".

Definition untitledCure : Article :=
  {| title := None; description := Some "Scientists discover a cure";
     url := None; source := Some {| name := Some "Reuters" |};
     urlToImage := None |}.

(** A runtime for the examples: ASCII lower-casing; the provider sends
    two good stories on the first call, fails on the second and has
    nothing good afterwards; two zone names are known. *)
Definition demoEnv : Env := {|
  toLowerCase := asciiLower;
  newsapi := fun n _ =>
    match n with
    | 0 => Body (Some [blogRecovery; reutersCure])
    | 1 => FetchRejects
    | _ => Body (Some [cryptoBreakthrough])
    end;
  localDate := fun _ tz =>
    if tz =? "Europe/Amsterdam" then Some (Valid 7 31)
    else if tz =? "Asia/Tokyo" then Some (Valid 15 31)
    else None;
  supabaseError := fun _ => false;
  resendThrows := fun _ => false
|}.

(** The same runtime with the store at fault on the external call
    number [n]. *)
Definition outageEnv (n : nat) : Env := {|
  toLowerCase := asciiLower;
  newsapi := @newsapi demoEnv;
  localDate := @localDate demoEnv;
  supabaseError := fun k => (k =? n)%nat;
  resendThrows := fun _ => false
|}.

Definition subscriber (e : string) (i : list string) (tz : string)
  : Subscriber :=
  {| email := e; interests := i; timezone := tz;
     created_at := 0; updated_at := 0 |}.

Definition anna : Subscriber :=
  subscriber "anna@example.org" ["health"; "science"; "space"]
             "Europe/Amsterdam".

Definition lost : Subscriber :=
  subscriber "lost@example.org" ["health"] "Mars/Phobos".

Definition item (t d src cat : string) : NewsItem :=
  {| item_title := Some t; item_description := Some d;
     item_url := Some "https://example.org/story";
     item_source := Some src; item_image := None; category := cat |}.

Definition reutersItem : NewsItem :=
  item "Scientists discover breakthrough cure"
       "research finds new treatment" "Reuters" "health".

Definition blogItem : NewsItem :=
  item "Local clinic celebrates recovery milestone"
       "Volunteers helped hundreds of patients" "Daily Blog" "health".

(** Two signup requests for an address that is in the table. *)
Definition repeatBody : SignupBody :=
  {| body_email := Some "anna@example.org";
     body_interests := Some ["Tech"; "Good News!"];
     body_timezone := Some "Europe/Paris" |}.

Definition refusedBody : SignupBody :=
  {| body_email := Some "anna@example.org";
     body_interests := Some ["!!!"];
     body_timezone := Some "Europe/Paris" |}.

(** A first signup, for an address that differs from a stored one
    by its case only. *)
Definition caseBody : SignupBody :=
  {| body_email := Some "Anna@example.org";
     body_interests := Some ["Space"];
     body_timezone := None |}.

(** The demo runtime with a mail service that throws on every send. *)
Definition bouncingEnv : Env := {|
  toLowerCase := asciiLower;
  newsapi := @newsapi demoEnv;
  localDate := @localDate demoEnv;
  supabaseError := fun _ => false;
  resendThrows := fun _ => true
|}.

(** A runtime on which every provider call brings the two good
    stories and nothing fails. *)
Definition morningEnv : Env := {|
  toLowerCase := asciiLower;
  newsapi := fun _ _ => Body (Some [blogRecovery; reutersCure]);
  localDate := @localDate demoEnv;
  supabaseError := fun _ => false;
  resendThrows := fun _ => false
|}.

(** A good story whose [source] is missing, and one more trusted
    story. *)
Definition anonymousCure : Article :=
  {| title := Some "Volunteers celebrate a milestone";
     description := Some "A success for the town";
     url := None; source := None; urlToImage := None |}.

Definition bbcCure : Article :=
  article "Renewable power milestone" "A new study of wind farms"
          "BBC News".

(** A runtime on which every provider call brings the story without
    source first and two trusted stories after it. *)
Definition mixedEnv : Env := {|
  toLowerCase := asciiLower;
  newsapi := fun _ _ => Body (Some [anonymousCure; reutersCure; bbcCure]);
  localDate := @localDate demoEnv;
  supabaseError := fun _ => false;
  resendThrows := fun _ => false
|}.

Definition libraryAward : Article :=
  article "Library wins award" "Volunteers celebrate a milestone"
          "Reuters".

Definition world (n : nat) (t : list Subscriber) : World :=
  {| tick := n; table := t; queries := []; outbox := [] |}.

(** ** Notions used for the further properties *)

(** The strings a regular expression denotes. *)
Inductive matches : regex -> string -> Prop :=
| MEps : matches Eps ""
| MClass (p : ascii -> bool) (c : ascii) :
    p c = true -> matches (Class p) (String c "")
| MAltL (r1 r2 : regex) (s : string) :
    matches r1 s -> matches (Alt r1 r2) s
| MAltR (r1 r2 : regex) (s : string) :
    matches r2 s -> matches (Alt r1 r2) s
| MSeq (r1 r2 : regex) (s1 s2 : string) :
    matches r1 s1 -> matches r2 s2 -> matches (Seq r1 r2) (s1 ++ s2)
| MStarNil (r : regex) : matches (Star r) ""
| MStarApp (r : regex) (s1 s2 : string) :
    matches r s1 -> matches (Star r) s2 -> matches (Star r) (s1 ++ s2).

(** Every character of [s] is in the class [p]. *)
Fixpoint allChars (p : ascii -> bool) (s : string) : bool :=
  match s with
  | EmptyString => true
  | String c rest => p c && allChars p rest
  end.

(** How often the character [c] occurs in [s]. *)
Fixpoint occurrences (c : ascii) (s : string) : nat :=
  match s with
  | EmptyString => 0
  | String x rest => (if Ascii.eqb x c then 1 else 0) + occurrences c rest
  end.

(** ASCII text. *)
Definition isAscii (s : string) : bool :=
  allChars (fun c => (nat_of_ascii c <? 128)%nat) s.

(** A string property that is absent or ASCII. *)
Definition asciiField (v : option string) : Prop :=
  forall s, v = Some s -> isAscii s = true.

(** The class [[^\s@]] of the email pattern. *)
Definition plain (c : ascii) : bool := negb (whitespace c || isChar "@" c).

(** The class [[a-z0-9\s-]] that sanitising leaves. *)
Definition tagChar (c : ascii) : bool :=
  between "a" "z" c || between "0" "9" c || whitespace c || isChar "-" c.

(** An interest tag as sanitising leaves it. *)
Definition cleanTag (i : string) : Prop :=
  1 <= String.length i <= 50 /\ allChars tagChar i = true.

(** A row as the signup handlers write it for a request of ASCII
    text. *)
Definition cleanRow (r : Subscriber) : Prop :=
  isAscii (email r) = true
  /\ isValidEmail (email r) = true
  /\ 1 <= length (interests r) <= 10
  /\ Forall cleanTag (interests r)
  /\ isAscii (timezone r) = true
  /\ 1 <= String.length (timezone r) <= 50.

Section SignupNotions.
Context {E : Env}.

(** The interests of a request are ASCII once lower-cased. *)
Definition asciiInterests (interests : option (list string)) : Prop :=
  forall l, interests = Some l ->
            Forall (fun i => isAscii (toLowerCase i) = true) l.

(** A request body of ASCII text. *)
Definition asciiBody (body : SignupBody) : Prop :=
  asciiField (body_email body)
  /\ asciiInterests (body_interests body)
  /\ asciiField (body_timezone body).

(** The row a first signup inserts. *)
Definition newRow (body : SignupBody) (e : string) (now : Z) : Subscriber :=
  {| email := e;
     interests := sanitizeInterests (body_interests body);
     timezone := cleanTimezoneOf (body_timezone body);
     created_at := now; updated_at := now |}.

(** The table once a repeated signup has updated the rows of [e]. *)
Definition updatedTable (body : SignupBody) (e : string) (now : Z)
           (t : list Subscriber) : list Subscriber :=
  map (fun r => if email r =? e
                then withPreferences
                       (sanitizeInterests (body_interests body))
                       (cleanTimezoneOf (body_timezone body)) now r
                else r) t.

(** What a signup does to the table: nothing, with an answer other
    than 200; an update of the rows of a known email, answered 200; or
    the insertion of a row for an email that was not there. *)
Definition signupOutcome (body : SignupBody) (now : Z) (w : World)
           (r : HttpResponse) (w' : World) : Prop :=
  (status r <> 200 /\ table w' = table w)
  \/ exists e,
      body_email body = Some e
      /\ isValidEmail e = true
      /\ sanitizeInterests (body_interests body) <> []
      /\ ((status r = 200
           /\ In e (map email (table w))
           /\ table w' = updatedTable body e now (table w))
          \/ (~ In e (map email (table w))
              /\ table w' = table w ++ [newRow body e now])).

End SignupNotions.

Section SchedulerNotions.
Context {E : Env}.

(** A digest mail with one to six items for the subscriber [s]. *)
Definition digestOf (s : Subscriber) (m : Email) : Prop :=
  exists news, news <> [] /\ length news <= 6
               /\ m = Digest (email s) news (interests s).

(** A digest mail for a subscriber of [subs] who is due at [now]. *)
Definition digestFor (now : Z) (subs : list Subscriber) (m : Email) : Prop :=
  exists s, In s subs /\ Server.isDue now s = true /\ digestOf s m.

End SchedulerNotions.

(** * Properties *)

Unset Implicit Arguments.

(** ** Strings and arrays *)

Lemma prefix_app (kw rest : string) : prefix kw (kw ++ rest) = true.
Proof.
  induction kw as [|c kw IH]; simpl.
  - now destruct rest.
  - destruct (ascii_dec c c) as [_|ne]; [exact IH | now elim ne].
Qed.

Lemma includes_unfold (s kw : string) :
  includes s kw
  = if prefix kw s then true
    else match s with
         | EmptyString => false
         | String _ rest => includes rest kw
         end.
Proof. destruct s; reflexivity. Qed.

Lemma includes_here (kw rest : string) : includes (kw ++ rest) kw = true.
Proof. rewrite includes_unfold, prefix_app. reflexivity. Qed.

Lemma includes_app (pre kw post : string) :
  includes (pre ++ kw ++ post) kw = true.
Proof.
  induction pre as [|c pre IH].
  - change (includes (kw ++ post) kw = true). apply includes_here.
  - rewrite includes_unfold. simpl append.
    destruct (prefix kw _); [reflexivity | exact IH].
Qed.

Lemma some_true {A} (p : A -> bool) (l : list A) (x : A) :
  In x l -> p x = true -> some p l = true.
Proof.
  intros i px. unfold some. apply existsb_exists. now exists x.
Qed.

Lemma slice_length {A} (n : nat) (l : list A) : length (slice n l) <= n.
Proof. unfold slice. apply firstn_le_length. Qed.

Lemma slice_In {A} (n : nat) (l : list A) (x : A) :
  In x (slice n l) -> In x l.
Proof.
  unfold slice. intros i. rewrite <- (firstn_skipn n l).
  apply in_or_app. now left.
Qed.

Lemma mapThrowing_length {A B} (f : A -> completion B) (l : list A) ys :
  mapThrowing f l = Normal ys -> length ys = length l.
Proof.
  revert ys. induction l as [|x l IH]; simpl; intros ys eq.
  - now inversion eq.
  - destruct (f x); [|discriminate].
    destruct (mapThrowing f l); [|discriminate].
    inversion eq; subst. simpl. now rewrite (IH _ eq_refl).
Qed.

Lemma mapThrowing_In {A B} (f : A -> completion B) (l : list A) ys y :
  mapThrowing f l = Normal ys -> In y ys ->
  exists x, In x l /\ f x = Normal y.
Proof.
  revert ys. induction l as [|x l IH]; simpl; intros ys eq iy.
  - inversion eq; subst. destruct iy.
  - destruct (f x) as [b|] eqn:fx; [|discriminate].
    destruct (mapThrowing f l) as [bs|]; [|discriminate].
    inversion eq; subst. destruct iy as [<-|iy].
    + exists x. auto.
    + destruct (IH _ eq_refl iy) as [x' [i' e']]. exists x'. auto.
Qed.

(** ** The sort of server.js *)

Section SortFacts.
Context {E : Env}.

Let trusted (a : Article) : bool := isTrusted (sourceOf a).

Lemma insertBy_trusted (x : Article) (l : list Article) :
  trusted x = true -> insertBy Server.byTrust x l = x :: l.
Proof.
  intros tx. destruct l as [|y l]; [reflexivity|].
  simpl. unfold Server.byTrust. fold (trusted x) (trusted y).
  rewrite tx. destruct (trusted y); reflexivity.
Qed.

Lemma insertBy_untrusted (x : Article) (ts us : list Article) :
  trusted x = false ->
  Forall (fun a => trusted a = true) ts ->
  Forall (fun a => trusted a = false) us ->
  insertBy Server.byTrust x (ts ++ us) = ts ++ x :: us.
Proof.
  intros tx Hts Hus. induction Hts as [|y ts ty _ IH]; simpl.
  - destruct Hus as [|u us tu _]; [reflexivity|].
    simpl. unfold Server.byTrust. fold (trusted x) (trusted u).
    rewrite tx, tu. reflexivity.
  - unfold Server.byTrust at 1. fold (trusted x) (trusted y).
    rewrite tx, ty. simpl. now rewrite IH.
Qed.

Lemma filter_Forall {A} (p : A -> bool) (l : list A) :
  Forall (fun a => p a = true) (filter p l).
Proof. apply Forall_forall. intros a i. now apply filter_In in i. Qed.

(** The stable sort by trust is a partition that keeps the order on
    each side. *)
Lemma sort_byTrust (l : list Article) :
  sort Server.byTrust l
  = filter trusted l ++ filter (fun a => negb (trusted a)) l.
Proof.
  induction l as [|x l IH]; [reflexivity|].
  unfold sort in *. simpl. rewrite IH.
  destruct (trusted x) eqn:tx; simpl.
  - now apply insertBy_trusted.
  - apply insertBy_untrusted; [exact tx | apply filter_Forall |].
    apply Forall_forall. intros a i. apply filter_In in i.
    destruct i as [_ na]. now destruct (trusted a).
Qed.

Lemma sort_byTrust_In (l : list Article) (a : Article) :
  In a (sort Server.byTrust l) <-> In a l.
Proof.
  rewrite sort_byTrust, in_app_iff, !filter_In.
  destruct (trusted a); simpl; intuition congruence.
Qed.

End SortFacts.

(** ** The classifier *)

Section ClassifierFacts.
Context {E : Env}.

Lemma keep_ext (a b : Article) :
  title a = title b -> description a = description b ->
  sourceOf a = sourceOf b -> keep a = keep b.
Proof. unfold keep. intros -> -> ->. reflexivity. Qed.

Lemma Server_toItem_keep (i j : string) (a b : Article) (it : NewsItem) :
  Server.toItem i a = Normal it -> Server.toItem j b = Normal it ->
  keep a = keep b.
Proof.
  unfold Server.toItem.
  destruct (source a) as [sa|] eqn:ea; [|discriminate].
  destruct (source b) as [sb|] eqn:eb; [|discriminate].
  intros [= <-] [= et ed _ en _ _].
  apply keep_ext; auto.
  unfold sourceOf. now rewrite ea, eb, en.
Qed.

Lemma Cron_toItem_keep (i j : string) (a b : Article) (it : NewsItem) :
  Cron.toItem i a = Normal it -> Cron.toItem j b = Normal it ->
  keep a = keep b.
Proof.
  unfold Cron.toItem.
  destruct (source a) as [sa|] eqn:ea; [|discriminate].
  destruct (source b) as [sb|] eqn:eb; [|discriminate].
  intros [= <-] [= et ed _ en _].
  apply keep_ext; auto.
  unfold sourceOf. now rewrite ea, eb, en.
Qed.

Lemma Server_goodArticles_In (l : list Article) (a : Article) :
  In a (Server.goodArticles l) <-> In a l /\ keep a = true.
Proof.
  unfold Server.goodArticles. now rewrite sort_byTrust_In, filter_In.
Qed.

Lemma Cron_goodArticles_In (l : list Article) (a : Article) :
  In a (Cron.goodArticles l) <-> In a l /\ keep a = true.
Proof. unfold Cron.goodArticles. now rewrite filter_In. Qed.

(** Every item an interest yields is built from a candidate that
    passed the filter. *)
Lemma Server_item_origin (interest : string) (l : list Article) items it :
  Server.selectGoodNews interest l = Normal items -> In it items ->
  exists a, In a l /\ keep a = true /\ Server.toItem interest a = Normal it.
Proof.
  unfold Server.selectGoodNews. intros eq i.
  destruct (mapThrowing_In _ _ _ _ eq i) as [a [ia ea]].
  apply slice_In, Server_goodArticles_In in ia. exists a. tauto.
Qed.

Lemma Cron_item_origin (interest : string) (l : list Article) items it :
  Cron.selectGoodNews interest l = Normal items -> In it items ->
  exists a, In a l /\ keep a = true /\ Cron.toItem interest a = Normal it.
Proof.
  unfold Cron.selectGoodNews. intros eq i.
  destruct (mapThrowing_In _ _ _ _ eq i) as [a [ia ea]].
  apply slice_In, Cron_goodArticles_In in ia. exists a. tauto.
Qed.

End ClassifierFacts.

Section SelectionFacts.
Context {E : Env}.

Lemma Server_select_small (interest : string) (l : list Article) items :
  Server.selectGoodNews interest l = Normal items ->
  length items <= 2 /\ Forall (fun it => category it = interest) items.
Proof.
  intros eq. split.
  - unfold Server.selectGoodNews in eq.
    rewrite (mapThrowing_length _ _ _ eq). apply slice_length.
  - apply Forall_forall. intros it i.
    destruct (Server_item_origin _ _ _ _ eq i) as [a [_ [_ ea]]].
    unfold Server.toItem in ea. destruct (source a); [|discriminate].
    now inversion ea.
Qed.

Lemma Cron_select_small (interest : string) (l : list Article) items :
  Cron.selectGoodNews interest l = Normal items ->
  length items <= 2 /\ Forall (fun it => category it = interest) items.
Proof.
  intros eq. split.
  - unfold Cron.selectGoodNews in eq.
    rewrite (mapThrowing_length _ _ _ eq). apply slice_length.
  - apply Forall_forall. intros it i.
    destruct (Cron_item_origin _ _ _ _ eq i) as [a [_ [_ ea]]].
    unfold Cron.toItem in ea. destruct (source a); [|discriminate].
    now inversion ea.
Qed.

Lemma Server_harvest_small (interest : string) (n : nat) :
  length (Server.harvest interest n) <= 2
  /\ Forall (fun it => category it = interest) (Server.harvest interest n).
Proof.
  unfold Server.harvest.
  destruct (newsapi n (requestFor interest)) as [| |[l|]];
    try (split; [simpl; lia | constructor]).
  destruct (Server.selectGoodNews interest l) eqn:eq.
  - now apply Server_select_small with l.
  - split; [simpl; lia | constructor].
Qed.

Lemma Cron_harvest_small (interest : string) (n : nat) :
  length (Cron.harvest interest n) <= 2
  /\ Forall (fun it => category it = interest) (Cron.harvest interest n).
Proof.
  unfold Cron.harvest.
  destruct (newsapi n (requestFor interest)) as [| |[l|]];
    try (split; [simpl; lia | constructor]).
  destruct (Cron.selectGoodNews interest l) eqn:eq.
  - now apply Cron_select_small with l.
  - split; [simpl; lia | constructor].
Qed.

(** One turn of the loop never throws: it appends what it harvested
    and has made one external call. *)
Lemma Server_forInterest_run (newsItems : list NewsItem) (interest : string)
      (w : World) :
  Server.forInterest newsItems interest w
  = (Normal (newsItems ++ Server.harvest interest (tick w)), elapse w).
Proof.
  unfold Server.forInterest, Server.harvest, tryCatch, bind, fetchArticles.
  destruct (newsapi (tick w) (requestFor interest)) as [| |[l|]];
    unfold ret, lift; rewrite ?app_nil_r; try reflexivity.
  destruct (Server.selectGoodNews interest l);
    rewrite ?app_nil_r; reflexivity.
Qed.

Lemma Cron_forInterest_run (newsItems : list NewsItem) (interest : string)
      (w : World) :
  Cron.forInterest newsItems interest w
  = (Normal (newsItems ++ Cron.harvest interest (tick w)), elapse w).
Proof.
  unfold Cron.forInterest, Cron.harvest, tryCatch, bind, fetchArticles.
  destruct (newsapi (tick w) (requestFor interest)) as [| |[l|]];
    unfold ret, lift; rewrite ?app_nil_r; try reflexivity.
  destruct (Cron.selectGoodNews interest l);
    rewrite ?app_nil_r; reflexivity.
Qed.

(** In server.js the trusted candidates that passed the filter come
    first, and each of the two groups is in fetch order. *)
Lemma server_trusted_first (l : list Article) :
  Server.goodArticles l
  = filter (fun a => isTrusted (sourceOf a)) (filter keep l)
    ++ filter (fun a => negb (isTrusted (sourceOf a))) (filter keep l).
Proof. unfold Server.goodArticles. apply sort_byTrust. Qed.

End SelectionFacts.

(** ** The loop over the interests *)

Lemma advance_elapse (n : nat) (w : World) :
  advance n (elapse w) = advance (S n) w.
Proof. unfold advance, elapse. simpl. f_equal. lia. Qed.

Lemma advance_advance (n m : nat) (w : World) :
  advance n (advance m w) = advance (n + m) w.
Proof. unfold advance. simpl. f_equal. lia. Qed.

Lemma elapse_advance (n : nat) (w : World) :
  elapse (advance n w) = advance (S n) w.
Proof. unfold advance, elapse. reflexivity. Qed.

Lemma slice_around {A} (before after : list A) (x : A) :
  length before < 3 ->
  slice 3 (before ++ x :: after)
  = before ++ x :: slice (2 - length before) after.
Proof.
  intros lt. unfold slice. rewrite firstn_app.
  rewrite firstn_all2 by lia.
  replace (3 - length before) with (S (2 - length before)) by lia.
  reflexivity.
Qed.

Lemma slice_short {A} (n : nat) (l : list A) : length l <= n -> slice n l = l.
Proof. intros le. unfold slice. now apply firstn_all2. Qed.

Section LoopFacts.
Context {E : Env}.

Lemma Server_loop_run (tags : list string) :
  forall (acc : list NewsItem) (w : World),
    forOf tags Server.forInterest acc w
    = (Normal (acc ++ Server.harvestAll tags (tick w)),
       advance (length tags) w).
Proof.
  induction tags as [|t tags IH]; intros acc w.
  - simpl. unfold ret. rewrite app_nil_r. now destruct w.
  - cbn [forOf]. unfold bind. rewrite Server_forInterest_run, IH.
    cbn [Server.harvestAll length]. rewrite <- app_assoc, advance_elapse.
    reflexivity.
Qed.

Lemma Cron_loop_run (tags : list string) :
  forall (acc : list NewsItem) (w : World),
    forOf tags Cron.forInterest acc w
    = (Normal (acc ++ Cron.harvestAll tags (tick w)),
       advance (length tags) w).
Proof.
  induction tags as [|t tags IH]; intros acc w.
  - simpl. unfold ret. rewrite app_nil_r. now destruct w.
  - cbn [forOf]. unfold bind. rewrite Cron_forInterest_run, IH.
    cbn [Cron.harvestAll length]. rewrite <- app_assoc, advance_elapse.
    reflexivity.
Qed.

(** [fetchGoodNews] never throws; it makes one provider call for each
    of the first three interests and changes nothing else. *)
Lemma Server_fetchGoodNews_run (interests : list string) (w : World) :
  Server.fetchGoodNews interests w
  = (Normal (Server.harvestAll (slice 3 interests) (tick w)),
     advance (length (slice 3 interests)) w).
Proof. unfold Server.fetchGoodNews. now rewrite Server_loop_run. Qed.

Lemma Cron_fetchGoodNews_run (interests : list string) (w : World) :
  Cron.fetchGoodNews interests w
  = (Normal (Cron.harvestAll (slice 3 interests) (tick w)),
     advance (length (slice 3 interests)) w).
Proof. unfold Cron.fetchGoodNews. now rewrite Cron_loop_run. Qed.

Lemma Server_harvestAll_app (l1 l2 : list string) :
  forall n, Server.harvestAll (l1 ++ l2) n
            = Server.harvestAll l1 n ++ Server.harvestAll l2 (length l1 + n).
Proof.
  induction l1 as [|t l1 IH]; intros n; [reflexivity|].
  simpl. rewrite IH, <- app_assoc. do 3 f_equal. lia.
Qed.

Lemma Cron_harvestAll_app (l1 l2 : list string) :
  forall n, Cron.harvestAll (l1 ++ l2) n
            = Cron.harvestAll l1 n ++ Cron.harvestAll l2 (length l1 + n).
Proof.
  induction l1 as [|t l1 IH]; intros n; [reflexivity|].
  simpl. rewrite IH, <- app_assoc. do 3 f_equal. lia.
Qed.

Lemma Server_harvest_failed (interest : string) (n : nat) :
  providerFails n interest -> Server.harvest interest n = [].
Proof. unfold Server.harvest. now intros [-> | ->]. Qed.

Lemma Cron_harvest_failed (interest : string) (n : nat) :
  providerFails n interest -> Cron.harvest interest n = [].
Proof. unfold Cron.harvest. now intros [-> | ->]. Qed.

End LoopFacts.

(** ** Dropped candidates *)

Section DroppedFacts.
Context {E : Env}.

Lemma Server_harvestAll_In (tags : list string) :
  forall n it, In it (Server.harvestAll tags n) ->
               exists t l items,
                 Server.selectGoodNews t l = Normal items /\ In it items.
Proof.
  induction tags as [|t tags IH]; simpl; intros n it i; [destruct i|].
  apply in_app_or in i. destruct i as [i|i]; [|now apply IH with (S n)].
  unfold Server.harvest in i.
  destruct (newsapi n (requestFor t)) as [| |[l|]]; try destruct i.
  destruct (Server.selectGoodNews t l) as [items|] eqn:eq; [|destruct i].
  now exists t, l, items.
Qed.

Lemma Cron_harvestAll_In (tags : list string) :
  forall n it, In it (Cron.harvestAll tags n) ->
               exists t l items,
                 Cron.selectGoodNews t l = Normal items /\ In it items.
Proof.
  induction tags as [|t tags IH]; simpl; intros n it i; [destruct i|].
  apply in_app_or in i. destruct i as [i|i]; [|now apply IH with (S n)].
  unfold Cron.harvest in i.
  destruct (newsapi n (requestFor t)) as [| |[l|]]; try destruct i.
  destruct (Cron.selectGoodNews t l) as [items|] eqn:eq; [|destruct i].
  now exists t, l, items.
Qed.

Lemma rejected_dropped (a : Article) : keep a = false -> dropped a.
Proof.
  intros ka.
  assert (server : forall interest t l items it,
             Server.selectGoodNews t l = Normal items ->
             Server.toItem interest a = Normal it -> ~ In it items).
  { intros interest t l items it eq ea i.
    destruct (Server_item_origin _ _ _ _ eq i) as [b [_ [kb eb]]].
    rewrite (Server_toItem_keep _ _ _ _ _ ea eb) in ka. congruence. }
  assert (cron : forall interest t l items it,
             Cron.selectGoodNews t l = Normal items ->
             Cron.toItem interest a = Normal it -> ~ In it items).
  { intros interest t l items it eq ea i.
    destruct (Cron_item_origin _ _ _ _ eq i) as [b [_ [kb eb]]].
    rewrite (Cron_toItem_keep _ _ _ _ _ ea eb) in ka. congruence. }
  unfold dropped. split; [exact ka|].
  split.
  { intros l i. apply Server_goodArticles_In in i. destruct i. congruence. }
  split.
  { intros l i. apply Cron_goodArticles_In in i. destruct i. congruence. }
  split; [intros interest; apply server|].
  split; [intros interest; apply cron|].
  split.
  - intros interests w items w' interest it run ea i.
    rewrite Server_fetchGoodNews_run in run. injection run as <- _.
    destruct (Server_harvestAll_In _ _ _ i) as [t [l [items [eq i']]]].
    exact (server interest t l items it eq ea i').
  - intros interests w items w' interest it run ea i.
    rewrite Cron_fetchGoodNews_run in run. injection run as <- _.
    destruct (Cron_harvestAll_In _ _ _ i) as [t [l [items [eq i']]]].
    exact (cron interest t l items it eq ea i').
Qed.

End DroppedFacts.

(** C1, in daily-digest.js: the candidates that passed the filter stay
    in fetch order.  With a blog story fetched before a Reuters story,
    both passing, the cron job lists the blog story first, where
    server.js lists the Reuters story first. *)
Theorem cron_keeps_fetch_order :
  @keep demoEnv blogRecovery = true
  /\ @keep demoEnv reutersCure = true
  /\ isTrusted (@sourceOf demoEnv blogRecovery) = false
  /\ isTrusted (@sourceOf demoEnv reutersCure) = true
  /\ @Cron.selectGoodNews demoEnv "health" [blogRecovery; reutersCure]
     = Normal [blogItem; reutersItem]
  /\ @Server.selectGoodNews demoEnv "health" [blogRecovery; reutersCure]
     = Normal [reutersItem; blogItem].
Proof. repeat split; vm_compute; reflexivity. Qed.

(** With two untrusted stories fetched first, the cron job has no
    place left for the Reuters story. *)
Example cron_cuts_trusted_story_off :
  @keep demoEnv blogGarden = true
  /\ (exists items,
         @Cron.selectGoodNews demoEnv "health"
                              [blogRecovery; blogGarden; reutersCure]
         = Normal items
         /\ map item_source items = [Some "Daily Blog"; Some "Village Voice"])
  /\ (exists items,
         @Server.selectGoodNews demoEnv "health"
                                [blogRecovery; blogGarden; reutersCure]
         = Normal items
         /\ map item_source items = [Some "Reuters"; Some "Daily Blog"]).
Proof.
  split; [vm_compute; reflexivity|].
  split; eexists; (split; [vm_compute; reflexivity|]); reflexivity.
Qed.

(** C2: a candidate whose text holds a positive keyword and whose text
    or source name holds an exclusion keyword is rejected by the filter
    and is in no output of either entry point. *)
Theorem exclusion_dominates {E : Env} (a : Article) (t d : string) :
  title a = Some t -> description a = Some d ->
  hasPositive (textOf t d) = true ->
  hasExcluded (textOf t d) (sourceOf a) = true ->
  dropped a.
Proof.
  intros et ed _ he. apply rejected_dropped.
  unfold keep. rewrite et, ed, he.
  destruct (negb (truthy (Some t)) || negb (truthy (Some d)));
    [reflexivity | apply andb_false_r].
Qed.

Lemma exclusion_dominates_witness :
  hasPositive (@textOf demoEnv "Breakthrough for crypto wallets"
                       "A new study of payment apps") = true
  /\ hasExcluded (@textOf demoEnv "Breakthrough for crypto wallets"
                          "A new study of payment apps")
                 (@sourceOf demoEnv cryptoBreakthrough) = true
  /\ @dropped demoEnv cryptoBreakthrough.
Proof.
  assert (hp : hasPositive (@textOf demoEnv "Breakthrough for crypto wallets"
                                    "A new study of payment apps") = true)
    by (vm_compute; reflexivity).
  assert (he : hasExcluded (@textOf demoEnv "Breakthrough for crypto wallets"
                                    "A new study of payment apps")
                           (@sourceOf demoEnv cryptoBreakthrough) = true)
    by (vm_compute; reflexivity).
  split; [exact hp | split; [exact he |]].
  exact (@exclusion_dominates demoEnv cryptoBreakthrough _ _
           eq_refl eq_refl hp he).
Defined.

(** C5: one interest adds at most two items to the digest, each with
    that interest as its category; this holds of the items built from
    any candidate list and of every turn of the loop, in both entry
    points. *)
Theorem two_items_per_interest {E : Env} (interest : string) :
  (forall articles items,
      Server.selectGoodNews interest articles = Normal items ->
      length items <= 2 /\ Forall (fun it => category it = interest) items)
  /\ (forall articles items,
         Cron.selectGoodNews interest articles = Normal items ->
         length items <= 2 /\ Forall (fun it => category it = interest) items)
  /\ (forall newsItems w, exists items,
         Server.forInterest newsItems interest w
         = (Normal (newsItems ++ items), elapse w)
         /\ length items <= 2
         /\ Forall (fun it => category it = interest) items)
  /\ (forall newsItems w, exists items,
         Cron.forInterest newsItems interest w
         = (Normal (newsItems ++ items), elapse w)
         /\ length items <= 2
         /\ Forall (fun it => category it = interest) items).
Proof.
  split; [exact (Server_select_small interest)|].
  split; [exact (Cron_select_small interest)|].
  split; intros newsItems w.
  - exists (Server.harvest interest (tick w)).
    split; [apply Server_forInterest_run | apply Server_harvest_small].
  - exists (Cron.harvest interest (tick w)).
    split; [apply Cron_forInterest_run | apply Cron_harvest_small].
Qed.

(** C6: a candidate whose title or description is missing or empty is
    rejected by the filter, whatever its other fields hold, and is in
    no output of either entry point. *)
Theorem untitled_or_undescribed_dropped {E : Env} (a : Article) :
  truthy (title a) = false \/ truthy (description a) = false ->
  dropped a.
Proof.
  intros h. apply rejected_dropped. unfold keep.
  destruct h as [-> | ->]; simpl; [reflexivity|].
  now rewrite orb_true_r.
Qed.

Lemma untitled_or_undescribed_dropped_witness :
  (truthy (title untitledCure) = false
   \/ truthy (description untitledCure) = false)
  /\ includes (asciiLower "Scientists discover a cure") "cure" = true
  /\ @dropped demoEnv untitledCure.
Proof.
  split; [left; reflexivity|].
  split; [vm_compute; reflexivity|].
  exact (@untitled_or_undescribed_dropped demoEnv untitledCure
           (or_introl eq_refl)).
Defined.

(** C10: keywords are looked for as substrings.  A candidate whose
    text holds an exclusion keyword anywhere, inside a longer word
    too, is rejected by both entry points whatever else its text
    holds; and server.js counts a source as trusted as soon as its
    lower-cased name holds a trusted name anywhere. *)
Theorem keywords_match_inside_words {E : Env}
        (a : Article) (t d kw pre post : string) :
  title a = Some t -> description a = Some d ->
  In kw excludeKeywords ->
  textOf t d = (pre ++ kw ++ post)%string ->
  (hasExcluded (textOf t d) (sourceOf a) = true /\ dropped a)
  /\ (forall (b : Article) (s pre' post' : string),
         In s trustedSources ->
         sourceOf b = (pre' ++ s ++ post')%string ->
         isTrusted (sourceOf b) = true
         /\ forall c, isTrusted (sourceOf c) = false ->
                      Server.byTrust b c = (-1)%Z).
Proof.
  intros et ed ik etext.
  assert (he : hasExcluded (textOf t d) (sourceOf a) = true).
  { unfold hasExcluded. apply some_true with kw; [exact ik|].
    rewrite etext, includes_app. reflexivity. }
  split.
  - split; [exact he|].
    apply rejected_dropped. unfold keep. rewrite et, ed, he.
    destruct (negb (truthy (Some t)) || negb (truthy (Some d)));
      [reflexivity | apply andb_false_r].
  - intros b s pre' post' is_ esrc.
    assert (tb : isTrusted (sourceOf b) = true).
    { unfold isTrusted. apply some_true with s; [exact is_|].
      rewrite esrc. apply includes_app. }
    split; [exact tb|].
    intros c tc. unfold Server.byTrust. now rewrite tb, tc.
Qed.

Lemma keywords_match_inside_words_witness :
  In "bet" excludeKeywords
  /\ hasPositive (@textOf demoEnv "A better world"
                          "Volunteers achieve a milestone") = true
  /\ @dropped demoEnv betterWorld
  /\ In "time" trustedSources
  /\ isTrusted (@sourceOf demoEnv betterWorld) = true.
Proof.
  assert (ik : In "bet" excludeKeywords) by (do 2 right; left; reflexivity).
  assert (it : In "time" trustedSources) by (do 19 right; left; reflexivity).
  pose proof (@keywords_match_inside_words demoEnv betterWorld
                "A better world" "Volunteers achieve a milestone"
                "bet" "a " "ter world volunteers achieve a milestone"
                eq_refl eq_refl ik eq_refl) as [[_ dr] tr].
  split; [exact ik|].
  split; [vm_compute; reflexivity|].
  split; [exact dr|].
  split; [exact it|].
  exact (proj1 (tr betterWorld "time" "night" " gazette" it eq_refl)).
Defined.

(** "bet" in "alphabet", "dead" in "deadline", and "war" in the
    positive keyword "award" itself. *)
Example keywords_inside_words :
  @keep demoEnv alphabetAward = false
  /\ @keep demoEnv deadlineSuccess = false
  /\ includes "alphabet" "bet" = true
  /\ includes "deadline" "dead" = true
  /\ includes "award" "war" = true.
Proof. repeat split; vm_compute; reflexivity. Qed.

(** C7: when the provider call made for one of the first three
    interests fails, [fetchGoodNews] does not throw: that turn of the
    loop leaves [newsItems] as it was, and the value returned is what
    the interests before it yield followed by what the consulted
    interests after it yield, in both entry points. *)
Theorem failed_fetch_spares_other_interests {E : Env}
        (before after : list string) (interest : string) (w : World) :
  length before < 3 ->
  providerFails (tick w + length before) interest ->
  (exists items1 items2 w1 w2,
      Server.fetchGoodNews before w = (Normal items1, w1)
      /\ Server.forInterest items1 interest w1 = (Normal items1, elapse w1)
      /\ Server.fetchGoodNews (slice (2 - length before) after) (elapse w1)
         = (Normal items2, w2)
      /\ Server.fetchGoodNews (before ++ interest :: after) w
         = (Normal (items1 ++ items2), w2))
  /\ (exists items1 items2 w1 w2,
         Cron.fetchGoodNews before w = (Normal items1, w1)
         /\ Cron.forInterest items1 interest w1 = (Normal items1, elapse w1)
         /\ Cron.fetchGoodNews (slice (2 - length before) after) (elapse w1)
            = (Normal items2, w2)
         /\ Cron.fetchGoodNews (before ++ interest :: after) w
            = (Normal (items1 ++ items2), w2)).
Proof.
  intros lt fails.
  set (rest := slice (2 - length before) after).
  assert (lr : length rest <= 3).
  { unfold rest. pose proof (slice_length (2 - length before) after). lia. }
  assert (at_ : length before + tick w = tick w + length before) by lia.
  split.
  - exists (Server.harvestAll before (tick w)),
           (Server.harvestAll rest (S (length before + tick w))),
           (advance (length before) w),
           (advance (length rest) (elapse (advance (length before) w))).
    rewrite !Server_fetchGoodNews_run, Server_forInterest_run.
    rewrite slice_around by exact lt. fold rest.
    rewrite (slice_short 3 before) by lia.
    rewrite (slice_short 3 rest) by exact lr.
    rewrite Server_harvestAll_app. cbn [Server.harvestAll length].
    cbn [tick advance elapse].
    rewrite at_, (Server_harvest_failed _ _ fails), app_nil_r.
    repeat split. cbn [app]. f_equal.
    rewrite length_app. unfold advance, elapse. simpl. f_equal. lia.
  - exists (Cron.harvestAll before (tick w)),
           (Cron.harvestAll rest (S (length before + tick w))),
           (advance (length before) w),
           (advance (length rest) (elapse (advance (length before) w))).
    rewrite !Cron_fetchGoodNews_run, Cron_forInterest_run.
    rewrite slice_around by exact lt. fold rest.
    rewrite (slice_short 3 before) by lia.
    rewrite (slice_short 3 rest) by exact lr.
    rewrite Cron_harvestAll_app. cbn [Cron.harvestAll length].
    cbn [tick advance elapse].
    rewrite at_, (Cron_harvest_failed _ _ fails), app_nil_r.
    repeat split. cbn [app]. f_equal.
    rewrite length_app. unfold advance, elapse. simpl. f_equal. lia.
Qed.

Lemma failed_fetch_spares_other_interests_witness :
  length ["health"] < 3
  /\ @providerFails demoEnv (tick (world 0 []) + length ["health"]) "science"
  /\ (exists w2,
         @Server.fetchGoodNews demoEnv ["health"; "science"; "space"]
                               (world 0 [])
         = (Normal ([reutersItem; blogItem] ++ []), w2))
  /\ (exists w2,
         @Cron.fetchGoodNews demoEnv ["health"; "science"; "space"]
                             (world 0 [])
         = (Normal ([blogItem; reutersItem] ++ []), w2)).
Proof.
  assert (lt : length ["health"] < 3) by (simpl; lia).
  assert (f : @providerFails demoEnv
                (tick (world 0 []) + length ["health"]) "science")
    by (left; reflexivity).
  split; [exact lt | split; [exact f|]].
  destruct (@failed_fetch_spares_other_interests demoEnv
              ["health"] ["space"] "science" (world 0 []) lt f)
    as [[s1 [s2 [ws1 [ws2 [es1 [_ [es2 es]]]]]]]
        [c1 [c2 [wc1 [wc2 [ec1 [_ [ec2 ec]]]]]]]].
  vm_compute in es1. injection es1 as <- <-.
  vm_compute in es2. injection es2 as <- <-.
  vm_compute in ec1. injection ec1 as <- <-.
  vm_compute in ec2. injection ec2 as <- <-.
  split; eexists; [exact es | exact ec].
Defined.

(** ** The scheduler *)



(** [try { m } catch { ... }] with a handler that cannot throw. *)
Lemma tryCatch_total {A} (m : M A) (h : string -> M A) :
  (forall e w, exists a w', h e w = (Normal a, w')) ->
  forall w, exists a w', tryCatch m h w = (Normal a, w').
Proof.
  intros total w. unfold tryCatch.
  destruct (m w) as [[a|e] w']; [now exists a, w' | apply total].
Qed.

Section SchedulerFacts.
Context {E : Env}.

Lemma window_iff (d : Date) :
  strictEq (getHours d) 7 && ge (getMinutes d) 30 && lt (getMinutes d) 45
  = true
  <-> exists h m, d = Valid h m /\ h = 7%Z /\ (30 <= m < 45)%Z.
Proof.
  destruct d as [h m|]; simpl.
  - rewrite !andb_true_iff, Z.eqb_eq, Z.leb_le, Z.ltb_lt. split.
    + intros [[eh lo] hi]. exists h, m. auto.
    + intros [h' [m' [[= <- <-] [eh [lo hi]]]]]. auto.
  - split; [discriminate | intros [h [m [[=] _]]]].
Qed.

Lemma isDue_same (now : Z) (sub : Subscriber) :
  Cron.isDue now sub = Server.isDue now sub.
Proof. reflexivity. Qed.

Lemma Server_isDue_iff (now : Z) (sub : Subscriber) :
  Server.isDue now sub = true
  <-> exists h m, localDate now (timezone sub) = Some (Valid h m)
                  /\ h = 7%Z /\ (30 <= m < 45)%Z.
Proof.
  unfold Server.isDue. destruct (localDate now (timezone sub)) as [d|].
  - rewrite window_iff. split; intros [h [m [e r]]]; exists h, m.
    + now subst d.
    + now inversion e.
  - split; [discriminate | intros [h [m [[=] _]]]].
Qed.

(** The loop body of the cron job: the guarded statements when the
    subscriber is due, and nothing at all otherwise. *)
Lemma Cron_forSubscriber_run (now : Z) (n : nat) (sub : Subscriber)
      (w : World) :
  Cron.forSubscriber now n sub w
  = if Cron.isDue now sub
    then tryCatch (Cron.deliver n sub) (fun _ => ret n) w
    else (Normal n, w).
Proof.
  unfold Cron.forSubscriber, Cron.isDue.
  destruct (localDate now (timezone sub)) as [d|]; [|reflexivity].
  destruct (Cron.inWindow (getHours d) (getMinutes d)); reflexivity.
Qed.

Lemma Cron_forSubscriber_total (now : Z) (n : nat) (sub : Subscriber)
      (w : World) :
  exists n' w', Cron.forSubscriber now n sub w = (Normal n', w').
Proof.
  unfold Cron.forSubscriber. apply tryCatch_total.
  intros e w'. now exists n, w'.
Qed.


Lemma Server_getSubscribers_run (now : Z) (w : World) :
  exists w',
    Server.getSubscribersForCurrentHour now w
    = (Normal (if supabaseError (tick w) then []
               else filter (Server.isDue now) (table w)), w')
    /\ table w' = table w /\ outbox w' = outbox w.
Proof.
  unfold Server.getSubscribersForCurrentHour, bind, selectAll, request.
  destruct (supabaseError (tick w)); eexists; repeat split; reflexivity.
Qed.



End SchedulerFacts.

(** C3: a subscriber is due exactly when the projected local time has
    hour 7 and a minute from 30 up to, not including, 45.  This is the
    filter of [getSubscribersForCurrentHour] in server.js and the test
    that guards fetching and sending in the cron job; 07:31 is due,
    07:29 and 07:46 are not. *)
Theorem due_iff_half_past_seven {E : Env} (now : Z) (sub : Subscriber) :
  (Server.isDue now sub = true
   <-> exists h m, localDate now (timezone sub) = Some (Valid h m)
                   /\ h = 7%Z /\ (30 <= m < 45)%Z)
  /\ (Cron.isDue now sub = true
      <-> exists h m, localDate now (timezone sub) = Some (Valid h m)
                      /\ h = 7%Z /\ (30 <= m < 45)%Z)
  /\ (forall n w,
         Cron.forSubscriber now n sub w
         = if Cron.isDue now sub
           then tryCatch (Cron.deliver n sub) (fun _ => ret n) w
           else (Normal n, w))
  /\ (forall w, exists w',
         Server.getSubscribersForCurrentHour now w
         = (Normal (if supabaseError (tick w) then []
                    else filter (Server.isDue now) (table w)), w'))
  /\ (localDate now (timezone sub) = Some (Valid 7 31) ->
      Server.isDue now sub = true /\ Cron.isDue now sub = true)
  /\ (localDate now (timezone sub) = Some (Valid 7 29) ->
      Server.isDue now sub = false /\ Cron.isDue now sub = false)
  /\ (localDate now (timezone sub) = Some (Valid 7 46) ->
      Server.isDue now sub = false /\ Cron.isDue now sub = false).
Proof.
  split; [apply Server_isDue_iff|].
  split; [rewrite isDue_same; apply Server_isDue_iff|].
  split; [intros n w; apply Cron_forSubscriber_run|].
  split.
  { intros w. destruct (Server_getSubscribers_run now w) as [w' [e _]].
    now exists w'. }
  unfold Server.isDue, Cron.isDue.
  split; [intros at_; rewrite at_; split; reflexivity|].
  split; intros at_; rewrite at_; split; reflexivity.
Qed.

Lemma due_iff_half_past_seven_witness :
  @Server.isDue demoEnv 0 anna = true
  /\ @Server.isDue demoEnv 0 lost = false.
Proof.
  split.
  - apply (proj1 (@due_iff_half_past_seven demoEnv 0 anna)).
    exists 7%Z, 31%Z. repeat split; (reflexivity || lia).
  - destruct (@Server.isDue demoEnv 0 lost) eqn:e; [|reflexivity].
    apply (proj1 (@due_iff_half_past_seven demoEnv 0 lost)) in e.
    destruct e as [h [m [e _]]]. discriminate e.
Defined.



(** C8: when what [fetchGoodNews] returns for a subscriber is empty,
    nothing is sent for that subscriber: the outbox is as it was, the
    only external calls made are the provider calls for the consulted
    interests, and the loop goes on with the next subscriber.  In
    server.js this holds of [sendDailyDigest], which the timer job
    calls for the due subscribers; in the cron job it holds of the loop
    body for a due subscriber, and [sentCount] is not raised.  Each
    entry point is taken with its own [fetchGoodNews]. *)
Theorem empty_digest_is_not_sent {E : Env}
        (now : Z) (s : Subscriber) (rest : list Subscriber) (n : nat)
        (w : World) :
  (forall ws,
      Server.fetchGoodNews (interests s) w = (Normal [], ws) ->
      Server.sendDailyDigest s w = (Normal tt, ws)
      /\ outbox ws = outbox w
      /\ tick ws = length (slice 3 (interests s)) + tick w
      /\ forOf (s :: rest) (fun _ x => Server.sendDailyDigest x) tt w
         = forOf rest (fun _ x => Server.sendDailyDigest x) tt ws)
  /\ (forall wc,
         Cron.isDue now s = true ->
         Cron.fetchGoodNews (interests s) w = (Normal [], wc) ->
         Cron.forSubscriber now n s w = (Normal n, wc)
         /\ outbox wc = outbox w
         /\ tick wc = length (slice 3 (interests s)) + tick w
         /\ forOf (s :: rest) (Cron.forSubscriber now) n w
            = forOf rest (Cron.forSubscriber now) n wc).
Proof.
  split.
  - intros ws es.
    assert (sd : Server.sendDailyDigest s w = (Normal tt, ws)).
    { unfold Server.sendDailyDigest, tryCatch, bind. now rewrite es. }
    rewrite Server_fetchGoodNews_run in es. injection es as _ <-.
    repeat split; try reflexivity; [exact sd|].
    simpl. unfold bind. now rewrite sd.
  - intros wc due ec.
    assert (fs : Cron.forSubscriber now n s w = (Normal n, wc)).
    { rewrite Cron_forSubscriber_run, due.
      unfold Cron.deliver, tryCatch, bind. now rewrite ec. }
    rewrite Cron_fetchGoodNews_run in ec. injection ec as _ <-.
    repeat split; try reflexivity; [exact fs|].
    simpl. unfold bind. now rewrite fs.
Qed.

Lemma empty_digest_is_not_sent_witness :
  @Server.fetchGoodNews demoEnv (interests anna) (world 2 [])
  = (Normal [], world 5 [])
  /\ @Server.sendDailyDigest demoEnv anna (world 2 [])
     = (Normal tt, world 5 [])
  /\ @Cron.isDue mixedEnv 0 anna = true
  /\ @Cron.fetchGoodNews mixedEnv (interests anna) (world 0 [])
     = (Normal [], world 3 [])
  /\ (exists items,
         @Server.fetchGoodNews mixedEnv (interests anna) (world 0 [])
         = (Normal items, world 3 [])
         /\ length items = 6)
  /\ @Cron.forSubscriber mixedEnv 0 0 anna (world 0 [])
     = (Normal 0, world 3 []).
Proof.
  assert (es : @Server.fetchGoodNews demoEnv (interests anna) (world 2 [])
               = (Normal [], world 5 [])) by (vm_compute; reflexivity).
  assert (due : @Cron.isDue mixedEnv 0 anna = true) by reflexivity.
  assert (ec : @Cron.fetchGoodNews mixedEnv (interests anna) (world 0 [])
               = (Normal [], world 3 [])) by (vm_compute; reflexivity).
  destruct (@empty_digest_is_not_sent demoEnv 0 anna [] 0 (world 2 []))
    as [server _].
  destruct (@empty_digest_is_not_sent mixedEnv 0 anna [] 0 (world 0 []))
    as [_ cron].
  split; [exact es|].
  split; [exact (proj1 (server _ es))|].
  split; [exact due|].
  split; [exact ec|].
  split; [eexists; split; [vm_compute; reflexivity | reflexivity]|].
  exact (proj1 (cron _ due ec)).
Defined.

(** ** Signup *)

Lemma single_row (e : string) (t : list Subscriber) :
  NoDup (map email t) -> In e (map email t) ->
  exists r, filter (fun r => email r =? e) t = [r] /\ email r = e.
Proof.
  induction t as [|x t IH]; simpl; intros nd i; [destruct i|].
  inversion nd as [|? ? nx nd']; subst.
  destruct (email x =? e) eqn:ex.
  - apply String.eqb_eq in ex. exists x. split; [|exact ex].
    f_equal.
    destruct (filter (fun r => email r =? e) t) as [|y ys] eqn:f;
      [reflexivity|].
    exfalso. apply nx. rewrite ex.
    assert (iy : In y (filter (fun r => email r =? e) t))
      by (rewrite f; now left).
    apply filter_In in iy. destruct iy as [iy ey].
    apply String.eqb_eq in ey. rewrite <- ey. now apply in_map.
  - apply String.eqb_neq in ex. destruct i as [i|i]; [contradiction|].
    now apply IH.
Qed.

Section SignupFacts.
Context {E : Env}.

Lemma valid_email_truthy (e : string) :
  isValidEmail e = true -> truthy (Some e) = true.
Proof. destruct e; [discriminate | reflexivity]. Qed.

Lemma update_keeps_emails (e : string) (i : list string) (tz : string)
      (at_ : Z) (t : list Subscriber) :
  map email (map (fun r => if email r =? e
                           then withPreferences i tz at_ r else r) t)
  = map email t.
Proof.
  rewrite map_map. apply map_ext. intros r.
  now destruct (email r =? e).
Qed.

(** What the lookup and the update of a repeated signup come to. *)
Lemma lookup_then_update (e : string) (i : list string) (tz : string)
      (now : Z) (w : World) :
  NoDup (map email (table w)) -> In e (map email (table w)) ->
  supabaseError (tick w) = false ->
  exists w1,
    selectSingle e w = (Normal (Data e), w1)
    /\ update e i tz now w1
       = (Normal (if supabaseError (S (tick w))
                  then Failed "service unavailable" else Data tt),
          {| tick := S (S (tick w));
             table := if supabaseError (S (tick w)) then table w
                      else map (fun r => if email r =? e
                                         then withPreferences i tz now r
                                         else r) (table w);
             queries := queries w ++ [SelectSingle e; Update e i tz now];
             outbox := outbox w |}).
Proof.
  intros nd i_ up.
  destruct (single_row e (table w) nd i_) as [r [fr er]].
  eexists. split.
  - unfold selectSingle, request. rewrite up, fr, er. reflexivity.
  - unfold update, request. simpl.
    rewrite <- app_assoc. simpl.
    destruct (supabaseError (S (tick w))); reflexivity.
Qed.

End SignupFacts.

(** C9 as stated fails: the address of the request is in the table,
    yet the request is refused with status 400 before the store is
    asked, because no interest is left after sanitising; no update is
    issued and the message is not the one of an update. *)
Lemma known_email_refused_without_update :
  In "anna@example.org" (map email (table (world 0 [lost; anna])))
  /\ @Server.signup demoEnv refusedBody 5 (world 0 [lost; anna])
     = (Normal {| status := 400;
                  json := Error "At least one interest required" |},
        world 0 [lost; anna])
  /\ @Signup.handler demoEnv Signup.POST refusedBody 5 (world 0 [lost; anna])
     = (Normal {| status := 400;
                  json := Error "At least one interest required" |},
        world 0 [lost; anna])
  /\ ~ (exists w',
           @Server.signup demoEnv refusedBody 5 (world 0 [lost; anna])
           = (Normal {| status := 200;
                        json := Message "Preferences updated successfully!" |},
              w')).
Proof.
  split; [right; left; reflexivity|].
  split; [vm_compute; reflexivity|].
  split; [vm_compute; reflexivity|].
  intros [w' e]. vm_compute in e. discriminate e.
Qed.

(** When the store is at fault on the update, the update has been
    issued and the answer is the failure message; when it is at fault
    on the lookup, the handler goes on to an insert, which fails too. *)
Example signup_during_outage :
  (exists w',
      @Server.signup (outageEnv 1) repeatBody 5 (world 0 [lost; anna])
      = (Normal {| status := 500;
                   json := Error "Failed to subscribe. Please try again." |},
         w')
      /\ queries w' = [SelectSingle "anna@example.org";
                       Update "anna@example.org" ["tech"; "good news"]
                              "Europe/Paris" 5]
      /\ table w' = [lost; anna])
  /\ (exists w',
         @Server.signup (outageEnv 0) repeatBody 5 (world 0 [lost; anna])
         = (Normal {| status := 500;
                      json := Error "Failed to subscribe. Please try again." |},
            w')
         /\ queries w'
            = [SelectSingle "anna@example.org";
               Insert {| email := "anna@example.org";
                         interests := ["tech"; "good news"];
                         timezone := "Europe/Paris";
                         created_at := 5; updated_at := 5 |}]
         /\ table w' = [lost; anna]).
Proof.
  split; eexists; (split; [vm_compute; reflexivity|]); split; reflexivity.
Qed.

(** C9, amended: a signup request that passes validation (a valid
    email, at least one interest left after sanitising) and whose
    email the store lookup finds (the email is in the table, whose
    emails are unique, and the lookup is answered) makes both signup
    handlers issue one update of interests, timezone and updated_at
    for that email and no insert; no mail is sent and the emails of the
    table are as before, so no row is added.  When the update succeeds
    the response is 200 with "Preferences updated successfully!"; when
    the store reports an error the response is 500 and the table is
    unchanged. *)
Theorem repeat_signup_updates {E : Env}
        (body : SignupBody) (e : string) (now : Z) (w : World) :
  body_email body = Some e ->
  isValidEmail e = true ->
  sanitizeInterests (body_interests body) <> [] ->
  NoDup (map email (table w)) ->
  In e (map email (table w)) ->
  supabaseError (tick w) = false ->
  exists (r : HttpResponse) (w' : World),
    Server.signup body now w = (Normal r, w')
    /\ Signup.handler Signup.POST body now w = (Normal r, w')
    /\ queries w'
       = queries w
         ++ [SelectSingle e;
             Update e (sanitizeInterests (body_interests body))
                    (cleanTimezoneOf (body_timezone body)) now]
    /\ outbox w' = outbox w
    /\ map email (table w') = map email (table w)
    /\ (supabaseError (S (tick w)) = false ->
        r = {| status := 200;
               json := Message "Preferences updated successfully!" |}
        /\ table w'
           = map (fun row =>
                    if email row =? e
                    then withPreferences
                           (sanitizeInterests (body_interests body))
                           (cleanTimezoneOf (body_timezone body)) now row
                    else row) (table w))
    /\ (supabaseError (S (tick w)) = true ->
        r = {| status := 500;
               json := Error "Failed to subscribe. Please try again." |}
        /\ table w' = table w).
Proof.
  intros eb ve ne nd i_ up.
  destruct (lookup_then_update e (sanitizeInterests (body_interests body))
              (cleanTimezoneOf (body_timezone body)) now w nd i_ up)
    as [w1 [es eu]].
  assert (len : (length (sanitizeInterests (body_interests body)) =? 0)%nat
                = false).
  { destruct (sanitizeInterests (body_interests body));
      [now elim ne | reflexivity]. }
  unfold Server.signup, Signup.handler, tryCatch, bind.
  rewrite eb. unfold orElse. rewrite (valid_email_truthy e ve), ve, len.
  cbn [negb orb]. rewrite es, eu.
  destruct (supabaseError (S (tick w))) eqn:up2; eexists; eexists;
    (split; [reflexivity|]); (split; [reflexivity|]);
    cbn [queries outbox table]; (split; [reflexivity|]);
    (split; [reflexivity|]).
  - split; [reflexivity|]. split; [discriminate|]. auto.
  - split; [apply update_keeps_emails|]. split; [auto | discriminate].
Qed.

Lemma repeat_signup_updates_witness :
  body_email repeatBody = Some "anna@example.org"
  /\ isValidEmail "anna@example.org" = true
  /\ @sanitizeInterests demoEnv (body_interests repeatBody)
     = ["tech"; "good news"]
  /\ @Server.signup demoEnv repeatBody 5 (world 0 [lost; anna])
     = (Normal {| status := 200;
                  json := Message "Preferences updated successfully!" |},
        {| tick := 2;
           table := [lost;
                     {| email := "anna@example.org";
                        interests := ["tech"; "good news"];
                        timezone := "Europe/Paris";
                        created_at := 0; updated_at := 5 |}];
           queries := [SelectSingle "anna@example.org";
                       Update "anna@example.org" ["tech"; "good news"]
                              "Europe/Paris" 5];
           outbox := [] |}).
Proof.
  assert (ne : @sanitizeInterests demoEnv (body_interests repeatBody) <> [])
    by (vm_compute; discriminate).
  assert (nd : NoDup (map email (table (world 0 [lost; anna])))).
  { repeat constructor; simpl; intuition discriminate. }
  assert (i_ : In "anna@example.org"
                  (map email (table (world 0 [lost; anna]))))
    by (right; left; reflexivity).
  destruct (@repeat_signup_updates demoEnv repeatBody "anna@example.org" 5
              (world 0 [lost; anna]) eq_refl eq_refl ne nd i_ eq_refl)
    as [r [w' [es [_ [eq_ [eo [_ [ok _]]]]]]]].
  destruct (ok eq_refl) as [er et].
  split; [reflexivity|].
  split; [vm_compute; reflexivity|].
  split; [vm_compute; reflexivity|].
  rewrite es, er. f_equal.
  destruct w' as [k t q o]. simpl in *. subst t q o.
  vm_compute in es. injection es as _ <-. reflexivity.
Defined.

(** * Further properties *)

(** ** The matcher of regular expressions *)

Lemma append_nil_r (s : string) : (s ++ "")%string = s.
Proof. induction s as [|c s IH]; simpl; [reflexivity | now rewrite IH]. Qed.

Lemma append_assoc (s1 s2 s3 : string) :
  ((s1 ++ s2) ++ s3)%string = (s1 ++ s2 ++ s3)%string.
Proof. induction s1 as [|c s1 IH]; simpl; [reflexivity | now rewrite IH]. Qed.

Lemma append_eq_nil (s1 s2 : string) :
  (s1 ++ s2)%string = "" -> s1 = "" /\ s2 = "".
Proof. destruct s1; simpl; [auto | discriminate]. Qed.

Lemma seq_inv (r1 r2 : regex) (s : string) :
  matches (Seq r1 r2) s ->
  exists s1 s2, s = (s1 ++ s2)%string /\ matches r1 s1 /\ matches r2 s2.
Proof.
  intros m. remember (Seq r1 r2) as r eqn:er.
  destruct m; try discriminate. injection er as -> ->. eauto.
Qed.

Lemma alt_inv (r1 r2 : regex) (s : string) :
  matches (Alt r1 r2) s -> matches r1 s \/ matches r2 s.
Proof.
  intros m. remember (Alt r1 r2) as r eqn:er.
  destruct m; try discriminate; injection er as -> ->; auto.
Qed.

Lemma class_inv (p : ascii -> bool) (s : string) :
  matches (Class p) s -> exists c, s = String c "" /\ p c = true.
Proof.
  intros m. remember (Class p) as r eqn:er.
  destruct m; try discriminate. injection er as ->. eauto.
Qed.

Lemma never_inv (s : string) : ~ matches Never s.
Proof. intros m. remember Never as r eqn:er. destruct m; discriminate. Qed.

Lemma eps_inv (s : string) : matches Eps s -> s = "".
Proof.
  intros m. remember Eps as r eqn:er. destruct m; try discriminate.
  reflexivity.
Qed.

Lemma nullable_matches (r : regex) : nullable r = true <-> matches r "".
Proof.
  induction r as [| |p|r1 IH1 r2 IH2|r1 IH1 r2 IH2|r IH]; simpl.
  - split; [discriminate | intros m; now apply never_inv in m].
  - split; [constructor | reflexivity].
  - split; [discriminate|].
    intros m. apply class_inv in m. destruct m as [c [e _]]. discriminate e.
  - rewrite orb_true_iff, IH1, IH2. split.
    + intros [m|m]; [now apply MAltL | now apply MAltR].
    + apply alt_inv.
  - rewrite andb_true_iff, IH1, IH2. split.
    + intros [m1 m2]. exact (MSeq m1 m2).
    + intros m. apply seq_inv in m. destruct m as [s1 [s2 [e [m1 m2]]]].
      symmetry in e. apply append_eq_nil in e. destruct e; subst. auto.
  - split; [constructor | reflexivity].
Qed.

(** A non-empty match of a star begins with a non-empty match of its
    body. *)
Lemma star_cons (r : regex) (s : string) :
  matches (Star r) s ->
  forall c rest, s = String c rest ->
  exists s1 s2, rest = (s1 ++ s2)%string
                /\ matches r (String c s1) /\ matches (Star r) s2.
Proof.
  intros m. remember (Star r) as sr eqn:er.
  induction m as [| | | | |r'|r' s1 s2 m1 _ m2 IH2]; try discriminate er.
  - intros c rest e. discriminate e.
  - injection er as ->. intros c rest e.
    destruct s1 as [|c1 s1]; simpl in e.
    + now apply IH2.
    + injection e as -> <-. now exists s1, s2.
Qed.

Lemma deriv_matches (r : regex) :
  forall c s, matches (deriv c r) s <-> matches r (String c s).
Proof.
  induction r as [| |p|r1 IH1 r2 IH2|r1 IH1 r2 IH2|r IH]; intros c s; simpl.
  - split; intros m; now apply never_inv in m.
  - split; intros m; [now apply never_inv in m|].
    apply eps_inv in m. discriminate m.
  - destruct (p c) eqn:pc; split; intros m.
    + apply eps_inv in m. subst s. now constructor.
    + apply class_inv in m. destruct m as [c' [[= _ ->] _]]. constructor.
    + now apply never_inv in m.
    + apply class_inv in m. destruct m as [c' [[= -> _] pc']]. congruence.
  - split; intros m; apply alt_inv in m; destruct m as [m|m].
    + apply MAltL. now apply IH1.
    + apply MAltR. now apply IH2.
    + apply MAltL. now apply IH1.
    + apply MAltR. now apply IH2.
  - assert (through1 : forall s1 s2,
               matches r1 (String c s1) -> matches r2 s2 ->
               matches (Seq (deriv c r1) r2) (s1 ++ s2)).
    { intros s1 s2 m1 m2. apply MSeq; [|exact m2]. now apply IH1. }
    assert (back1 : matches (Seq (deriv c r1) r2) s ->
                    matches (Seq r1 r2) (String c s)).
    { intros m. apply seq_inv in m. destruct m as [s1 [s2 [-> [m1 m2]]]].
      apply IH1 in m1. exact (MSeq m1 m2). }
    assert (split1 : matches (Seq r1 r2) (String c s) ->
                     (matches r1 "" /\ matches r2 (String c s))
                     \/ matches (Seq (deriv c r1) r2) s).
    { intros m. apply seq_inv in m. destruct m as [s1 [s2 [e [m1 m2]]]].
      destruct s1 as [|c1 s1]; simpl in e.
      - subst s2. now left.
      - injection e as <- ->. right. now apply through1. }
    destruct (nullable r1) eqn:n1; split; intros m.
    + apply alt_inv in m. destruct m as [m|m]; [now apply back1|].
      apply nullable_matches in n1.
      change (String c s) with ("" ++ String c s)%string.
      apply MSeq; [exact n1 | now apply IH2].
    + destruct (split1 m) as [[_ m2]|m'].
      * apply MAltR. now apply IH2.
      * now apply MAltL.
    + now apply back1.
    + destruct (split1 m) as [[m1 _]|m']; [|exact m'].
      apply nullable_matches in m1. congruence.
  - split; intros m.
    + apply seq_inv in m. destruct m as [s1 [s2 [-> [m1 m2]]]].
      apply IH in m1.
      change (String c (s1 ++ s2)) with (String c s1 ++ s2)%string.
      now apply MStarApp.
    + destruct (star_cons r _ m c s eq_refl) as [s1 [s2 [-> [m1 m2]]]].
      apply MSeq; [now apply IH | exact m2].
Qed.

(** [test] decides membership in what the expression denotes. *)
Lemma test_matches (s : string) :
  forall r, test r s = true <-> matches r s.
Proof.
  induction s as [|c s IH]; intros r; simpl.
  - apply nullable_matches.
  - rewrite IH. apply deriv_matches.
Qed.

(** ** Character classes *)

Lemma allChars_app (p : ascii -> bool) (s1 s2 : string) :
  allChars p (s1 ++ s2) = allChars p s1 && allChars p s2.
Proof.
  induction s1 as [|c s1 IH]; simpl; [reflexivity|].
  now rewrite IH, andb_assoc.
Qed.

Lemma allChars_weaken (p q : ascii -> bool) (s : string) :
  (forall c, p c = true -> q c = true) ->
  allChars p s = true -> allChars q s = true.
Proof.
  intros pq. induction s as [|c s IH]; simpl; [reflexivity|].
  rewrite !andb_true_iff. intros [pc ps]. auto.
Qed.

Lemma occurrences_app (c : ascii) (s1 s2 : string) :
  occurrences c (s1 ++ s2) = occurrences c s1 + occurrences c s2.
Proof.
  induction s1 as [|x s1 IH]; simpl; [reflexivity|]. rewrite IH. lia.
Qed.

Lemma plain_no_at (s : string) :
  allChars plain s = true -> occurrences "@" s = 0.
Proof.
  induction s as [|c s IH]; simpl; [reflexivity|].
  rewrite andb_true_iff. intros [pc ps]. rewrite (IH ps).
  unfold plain, isChar in pc. destruct (Ascii.eqb c "@"); [|reflexivity].
  now rewrite orb_true_r in pc.
Qed.

Lemma plain_no_whitespace (c : ascii) :
  plain c = true -> negb (whitespace c) = true.
Proof.
  unfold plain. destruct (whitespace c); [discriminate | reflexivity].
Qed.

Lemma length_app_string (s1 s2 : string) :
  String.length (s1 ++ s2) = String.length s1 + String.length s2.
Proof. induction s1 as [|c s1 IH]; simpl; [reflexivity | now rewrite IH]. Qed.

Lemma nonempty_length (s : string) : s <> "" <-> 1 <= String.length s.
Proof.
  destruct s; simpl; split; intros h; try lia; try discriminate.
  now elim h.
Qed.

(** [p*] and [p+] for a character class [p]. *)
Lemma star_class (p : ascii -> bool) (s : string) :
  matches (Star (Class p)) s <-> allChars p s = true.
Proof.
  split.
  - intros m. remember (Star (Class p)) as r eqn:er.
    induction m as [| | | | |r'|r' s1 s2 m1 _ m2 IH2]; try discriminate er.
    + reflexivity.
    + injection er as ->. apply class_inv in m1.
      destruct m1 as [c [-> pc]]. simpl. now rewrite pc, IH2.
  - induction s as [|c s IH]; simpl; [constructor|].
    rewrite andb_true_iff. intros [pc ps].
    change (String c s) with (String c "" ++ s)%string.
    apply MStarApp; [now constructor | now apply IH].
Qed.

Lemma plus_class (p : ascii -> bool) (s : string) :
  matches (Plus (Class p)) s <-> s <> "" /\ allChars p s = true.
Proof.
  unfold Plus. split.
  - intros m. apply seq_inv in m. destruct m as [s1 [s2 [-> [m1 m2]]]].
    apply class_inv in m1. destruct m1 as [c [-> pc]].
    apply star_class in m2. simpl. rewrite pc, m2. split; [discriminate|auto].
  - intros [ne ps]. destruct s as [|c s]; [now elim ne|].
    simpl in ps. apply andb_true_iff in ps. destruct ps as [pc ps].
    change (String c s) with (String c "" ++ s)%string.
    apply MSeq; [now constructor | now apply star_class].
Qed.

Lemma char_class (c : ascii) (s : string) :
  matches (Class (isChar c)) s <-> s = String c "".
Proof.
  split.
  - intros m. apply class_inv in m. destruct m as [x [-> e]].
    unfold isChar in e. apply Ascii.eqb_eq in e. now subst.
  - intros ->. constructor. unfold isChar. apply Ascii.eqb_refl.
Qed.

(** ** The shape of a valid email *)

Lemma emailRegex_shape (e : string) :
  matches emailRegex e
  <-> exists loc dom tld,
      e = (loc ++ "@" ++ dom ++ "." ++ tld)%string
      /\ (loc <> "" /\ allChars plain loc = true)
      /\ (dom <> "" /\ allChars plain dom = true)
      /\ (tld <> "" /\ allChars plain tld = true).
Proof.
  unfold emailRegex.
  change (Class (fun c => negb (whitespace c || isChar "@" c)))
    with (Class plain).
  split.
  - intros m.
    apply seq_inv in m. destruct m as [loc [s1 [-> [ml m]]]].
    apply seq_inv in m. destruct m as [a [s2 [-> [ma m]]]].
    apply seq_inv in m. destruct m as [dom [s3 [-> [md m]]]].
    apply seq_inv in m. destruct m as [d [tld [-> [mdot mt]]]].
    apply char_class in ma, mdot. subst a d.
    apply plus_class in ml, md, mt.
    exists loc, dom, tld. auto.
  - intros [loc [dom [tld [-> [hl [hd ht]]]]]].
    apply MSeq; [now apply plus_class|].
    apply (@MSeq _ _ "@"); [now apply char_class|].
    apply MSeq; [now apply plus_class|].
    apply (@MSeq _ _ "."); [now apply char_class|].
    now apply plus_class.
Qed.

(** X1: on ASCII strings, [isValidEmail] accepts exactly those of at
    most 254 characters of the form local@domain.tld in which the
    three parts are not empty and hold neither white space nor "@". *)
Theorem isValidEmail_iff (e : string) :
  isAscii e = true ->
  (isValidEmail e = true
   <-> (exists loc dom tld,
           e = (loc ++ "@" ++ dom ++ "." ++ tld)%string
           /\ (loc <> "" /\ allChars plain loc = true)
           /\ (dom <> "" /\ allChars plain dom = true)
           /\ (tld <> "" /\ allChars plain tld = true))
       /\ String.length e <= 254).
Proof.
  intros _. unfold isValidEmail.
  now rewrite andb_true_iff, test_matches, emailRegex_shape, Nat.leb_le.
Qed.

Lemma isValidEmail_iff_witness :
  isAscii "anna@example.org" = true
  /\ isValidEmail "anna@example.org" = true
  /\ isValidEmail "anna@example" = false.
Proof.
  assert (a : isAscii "anna@example.org" = true) by (vm_compute; reflexivity).
  split; [exact a|]. split; [|vm_compute; reflexivity].
  apply (proj2 (isValidEmail_iff "anna@example.org" a)).
  split; [|simpl; lia].
  exists "anna", "example", "org".
  repeat split; (discriminate || reflexivity).
Defined.

(** X2: an ASCII string that [isValidEmail] accepts holds no white
    space, exactly one "@", and between 5 and 254 characters. *)
Theorem valid_email_necessary (e : string) :
  isAscii e = true ->
  isValidEmail e = true ->
  allChars (fun c => negb (whitespace c)) e = true
  /\ occurrences "@" e = 1
  /\ 5 <= String.length e <= 254.
Proof.
  intros _.
  unfold isValidEmail. rewrite andb_true_iff, test_matches, Nat.leb_le.
  intros [m le]. apply emailRegex_shape in m.
  destruct m as [loc [dom [tld [-> [[nl pl] [[nd pd] [nt pt]]]]]]].
  split; [|split].
  - rewrite !allChars_app. simpl.
    rewrite (allChars_weaken plain _ loc plain_no_whitespace pl).
    rewrite (allChars_weaken plain _ dom plain_no_whitespace pd).
    rewrite (allChars_weaken plain _ tld plain_no_whitespace pt).
    reflexivity.
  - rewrite !occurrences_app.
    rewrite (plain_no_at loc pl), (plain_no_at dom pd), (plain_no_at tld pt).
    reflexivity.
  - split; [|exact le].
    apply nonempty_length in nl, nd, nt.
    rewrite !length_app_string. simpl. lia.
Qed.

Lemma valid_email_necessary_witness :
  isAscii "anna@example.org" = true
  /\ isValidEmail "anna@example.org" = true
  /\ occurrences "@" "anna@example.org" = 1
  /\ isValidEmail "anna@home@example.org" = false
  /\ isValidEmail "anna smith@example.org" = false.
Proof.
  assert (a : isAscii "anna@example.org" = true) by (vm_compute; reflexivity).
  assert (v : isValidEmail "anna@example.org" = true)
    by (vm_compute; reflexivity).
  split; [exact a|]. split; [exact v|].
  split; [exact (proj1 (proj2 (valid_email_necessary _ a v)))|].
  split; vm_compute; reflexivity.
Defined.

(** ** Sanitising *)

Lemma sliceStr_length (n : nat) (s : string) :
  String.length (sliceStr n s) = Nat.min n (String.length s).
Proof.
  unfold sliceStr. revert s. induction n as [|n IH]; intros s.
  - now destruct s.
  - destruct s as [|c s]; simpl; [reflexivity | now rewrite IH].
Qed.

Lemma sliceStr_short (n : nat) (s : string) :
  String.length s <= n -> sliceStr n s = s.
Proof.
  unfold sliceStr. revert s. induction n as [|n IH]; intros s le.
  - destruct s; [reflexivity | simpl in le; lia].
  - destruct s as [|c s]; simpl; [reflexivity|].
    simpl in le. rewrite IH by lia. reflexivity.
Qed.

Lemma sliceStr_allChars (p : ascii -> bool) (n : nat) (s : string) :
  allChars p s = true -> allChars p (sliceStr n s) = true.
Proof.
  unfold sliceStr. revert s. induction n as [|n IH]; intros s ps.
  - now destruct s.
  - destruct s as [|c s]; simpl; [reflexivity|].
    simpl in ps. apply andb_true_iff in ps. destruct ps as [pc ps].
    now rewrite pc, IH.
Qed.

Lemma keepChars_allChars (p : ascii -> bool) (s : string) :
  allChars p (keepChars p s) = true.
Proof.
  induction s as [|c s IH]; simpl; [reflexivity|].
  destruct (p c) eqn:pc; simpl; [now rewrite pc | exact IH].
Qed.

Lemma keepChars_fixed (p : ascii -> bool) (s : string) :
  allChars p s = true -> keepChars p s = s.
Proof.
  induction s as [|c s IH]; simpl; [reflexivity|].
  rewrite andb_true_iff. intros [pc ps]. now rewrite pc, IH.
Qed.

Lemma filter_length_le {A} (f : A -> bool) (l : list A) :
  length (filter f l) <= length l.
Proof.
  induction l as [|x l IH]; simpl; [lia|]. destruct (f x); simpl; lia.
Qed.

Lemma filter_fixed {A} (f : A -> bool) (l : list A) :
  Forall (fun x => f x = true) l -> filter f l = l.
Proof.
  induction 1 as [|x l fx _ IH]; simpl; [reflexivity|]. now rewrite fx, IH.
Qed.

Lemma map_fixed {A} (f : A -> A) (l : list A) :
  Forall (fun x => f x = x) l -> map f l = l.
Proof.
  induction 1 as [|x l fx _ IH]; simpl; [reflexivity|]. now rewrite fx, IH.
Qed.

Section SanitizeFacts.
Context {E : Env}.

Lemma sanitized_tags (l : list string) :
  Forall cleanTag
    (filter (fun i => (0 <? String.length i)%nat)
       (map (fun i => sliceStr 50 (keepChars tagChar (toLowerCase i))) l)).
Proof.
  apply Forall_forall. intros i h. apply filter_In in h.
  destruct h as [h pos]. apply in_map_iff in h. destruct h as [x [<- _]].
  apply Nat.ltb_lt in pos. unfold cleanTag. split.
  - rewrite sliceStr_length in *. lia.
  - apply sliceStr_allChars, keepChars_allChars.
Qed.

Lemma sanitizeInterests_clean (interests : option (list string)) :
  length (sanitizeInterests interests) <= 10
  /\ Forall cleanTag (sanitizeInterests interests).
Proof.
  unfold sanitizeInterests. destruct interests as [l|].
  - split; [|apply sanitized_tags].
    eapply Nat.le_trans; [apply filter_length_le|].
    rewrite length_map. apply slice_length.
  - split; [simpl; lia | constructor].
Qed.

Lemma cleanTimezoneOf_length (timezone : option string) :
  1 <= String.length (cleanTimezoneOf timezone) <= 50.
Proof.
  unfold cleanTimezoneOf. rewrite sliceStr_length.
  assert (1 <= String.length (orElse timezone "America/New_York")).
  { unfold orElse. destruct timezone as [[|c s]|]; simpl; lia. }
  lia.
Qed.

End SanitizeFacts.

(** X3: for a request whose interests are no array, or an array of
    strings that are ASCII once lower-cased, [sanitizeInterests]
    returns at most ten tags, each of 1 to 50 characters, all of them
    lower-case letters, digits, white space or "-". *)
Theorem sanitizeInterests_bounds {E : Env}
        (interests : option (list string)) :
  asciiInterests interests ->
  length (sanitizeInterests interests) <= 10
  /\ Forall (fun i => 1 <= String.length i <= 50
                      /\ allChars tagChar i = true)
            (sanitizeInterests interests).
Proof. intros _. apply sanitizeInterests_clean. Qed.

Lemma sanitizeInterests_bounds_witness :
  @asciiInterests demoEnv (Some ["Tech"; "Good News!"; "??"])
  /\ @sanitizeInterests demoEnv (Some ["Tech"; "Good News!"; "??"])
     = ["tech"; "good news"]
  /\ length (@sanitizeInterests demoEnv (Some ["Tech"; "Good News!"; "??"]))
     <= 10.
Proof.
  assert (a : @asciiInterests demoEnv (Some ["Tech"; "Good News!"; "??"])).
  { intros l [= <-]. repeat constructor. }
  split; [exact a|]. split; [vm_compute; reflexivity|].
  exact (proj1 (@sanitizeInterests_bounds demoEnv _ a)).
Defined.

(** X4: on a runtime whose [toLowerCase] leaves lower-case letters,
    digits, white space and "-" as they are, sanitising twice is
    sanitising once: tags that were stored come back unchanged. *)
Theorem sanitizeInterests_idempotent {E : Env}
        (interests : option (list string)) :
  (forall s, allChars tagChar s = true -> toLowerCase s = s) ->
  sanitizeInterests (Some (sanitizeInterests interests))
  = sanitizeInterests interests.
Proof.
  intros lower.
  destruct (sanitizeInterests_clean interests) as [len clean].
  revert len clean. generalize (sanitizeInterests interests) as l.
  intros l len clean. unfold sanitizeInterests at 1.
  rewrite slice_short by exact len.
  rewrite map_fixed.
  - apply filter_fixed. apply Forall_forall. intros i h.
    rewrite Forall_forall in clean. destruct (clean i h) as [[lo _] _].
    now apply Nat.ltb_lt.
  - apply Forall_forall. intros i h.
    rewrite Forall_forall in clean. destruct (clean i h) as [[_ hi] ok].
    rewrite (lower i ok).
    change (fun c => between "a" "z" c || between "0" "9" c
                     || whitespace c || isChar "-" c) with tagChar.
    rewrite (keepChars_fixed tagChar i ok). now apply sliceStr_short.
Qed.

(** ASCII lower-casing is such a [toLowerCase]. *)
Lemma asciiLower_keeps_tags (s : string) :
  allChars tagChar s = true -> asciiLower s = s.
Proof.
  induction s as [|c s IH]; simpl; [reflexivity|].
  rewrite andb_true_iff. intros [pc ps]. rewrite (IH ps). f_equal.
  destruct c as [[] [] [] [] [] [] [] []]; try reflexivity;
    vm_compute in pc; discriminate pc.
Qed.

Lemma sanitizeInterests_idempotent_witness :
  @sanitizeInterests demoEnv (Some ["Tech"; "Good News!"; "??"])
  = ["tech"; "good news"]
  /\ @sanitizeInterests demoEnv (Some ["tech"; "good news"])
     = ["tech"; "good news"].
Proof.
  assert (once : @sanitizeInterests demoEnv
                   (Some ["Tech"; "Good News!"; "??"])
                 = ["tech"; "good news"]) by (vm_compute; reflexivity).
  split; [exact once|].
  rewrite <- once at 2. rewrite <- once at 1.
  exact (@sanitizeInterests_idempotent demoEnv
           (Some ["Tech"; "Good News!"; "??"]) asciiLower_keeps_tags).
Defined.

(** X5: for a request whose timezone is absent or an ASCII string,
    the timezone a signup stores has between 1 and 50 characters; it
    is "America/New_York" when the request gives none or an empty
    one. *)
Theorem cleanTimezoneOf_bounds {E : Env} (timezone : option string) :
  asciiField timezone ->
  1 <= String.length (cleanTimezoneOf timezone) <= 50
  /\ (truthy timezone = false ->
      cleanTimezoneOf timezone = "America/New_York").
Proof.
  intros _. split; [apply cleanTimezoneOf_length|].
  unfold cleanTimezoneOf, orElse. intros ->. reflexivity.
Qed.

Lemma cleanTimezoneOf_bounds_witness :
  asciiField (Some "Europe/Paris")
  /\ cleanTimezoneOf (Some "Europe/Paris") = "Europe/Paris"
  /\ cleanTimezoneOf (Some "") = "America/New_York"
  /\ 1 <= String.length (cleanTimezoneOf (Some "Europe/Paris")) <= 50.
Proof.
  assert (a : asciiField (Some "Europe/Paris")).
  { intros s [= <-]. vm_compute. reflexivity. }
  split; [exact a|]. split; [reflexivity|]. split; [reflexivity|].
  exact (proj1 (@cleanTimezoneOf_bounds demoEnv _ a)).
Defined.

(** ** Signup, path by path *)

Section SignupPaths.
Context {E : Env}.

Lemma filter_email_none (e : string) (t : list Subscriber) :
  ~ In e (map email t) -> filter (fun r => email r =? e) t = [].
Proof.
  intros ni. induction t as [|x t IH]; simpl; [reflexivity|].
  destruct (email x =? e) eqn:ex.
  - apply String.eqb_eq in ex. elim ni. left. exact ex.
  - apply IH. intros i. apply ni. now right.
Qed.

Lemma existsb_email_none (e : string) (t : list Subscriber) :
  ~ In e (map email t) -> existsb (fun r => email r =? e) t = false.
Proof.
  intros ni. induction t as [|x t IH]; simpl; [reflexivity|].
  destruct (email x =? e) eqn:ex.
  - apply String.eqb_eq in ex. elim ni. left. exact ex.
  - apply IH. intros i. apply ni. now right.
Qed.

Lemma existsb_email_some (e : string) (t : list Subscriber) :
  existsb (fun r => email r =? e) t = false -> ~ In e (map email t).
Proof.
  intros ex i. apply in_map_iff in i. destruct i as [r [er ir]].
  assert (existsb (fun r => email r =? e) t = true).
  { apply existsb_exists. exists r. split; [exact ir|].
    now apply String.eqb_eq. }
  congruence.
Qed.

Lemma filter_single_in (e : string) (t : list Subscriber) (r : Subscriber) :
  filter (fun r => email r =? e) t = [r] -> In e (map email t).
Proof.
  intros f. assert (i : In r (filter (fun r => email r =? e) t))
    by (rewrite f; now left).
  apply filter_In in i. destruct i as [i er]. apply String.eqb_eq in er.
  rewrite <- er. now apply in_map.
Qed.

(** A request that fails validation is answered 400 at once. *)
Lemma Server_signup_invalid (body : SignupBody) (now : Z) (w : World) :
  truthy (body_email body) = false
  \/ isValidEmail (orElse (body_email body) "") = false
  \/ sanitizeInterests (body_interests body) = [] ->
  exists r, status r = 400 /\ Server.signup body now w = (Normal r, w).
Proof.
  intros h. unfold Server.signup, tryCatch.
  destruct (negb (truthy (body_email body))
            || negb (isValidEmail (orElse (body_email body) ""))) eqn:bad.
  - eexists. split; [|reflexivity]. reflexivity.
  - destruct h as [h | [h | h]].
    + rewrite h in bad. discriminate bad.
    + rewrite h, orb_true_r in bad. discriminate bad.
    + rewrite h. eexists. split; [|reflexivity]. reflexivity.
Qed.

Lemma Handler_signup_invalid (body : SignupBody) (now : Z) (w : World) :
  truthy (body_email body) = false
  \/ isValidEmail (orElse (body_email body) "") = false
  \/ sanitizeInterests (body_interests body) = [] ->
  exists r, status r = 400
            /\ Signup.handler Signup.POST body now w = (Normal r, w).
Proof.
  intros h. unfold Signup.handler, tryCatch.
  destruct (negb (truthy (body_email body))
            || negb (isValidEmail (orElse (body_email body) ""))) eqn:bad.
  - eexists. split; [|reflexivity]. reflexivity.
  - destruct h as [h | [h | h]].
    + rewrite h in bad. discriminate bad.
    + rewrite h, orb_true_r in bad. discriminate bad.
    + rewrite h. eexists. split; [|reflexivity]. reflexivity.
Qed.

End SignupPaths.

Section SignupOutcomes.
Context {E : Env}.

Lemma validated (body : SignupBody) :
  negb (truthy (body_email body))
  || negb (isValidEmail (orElse (body_email body) "")) = false ->
  exists e, body_email body = Some e
            /\ orElse (body_email body) "" = e
            /\ isValidEmail e = true.
Proof.
  intros ok. apply orb_false_iff in ok. destruct ok as [t v].
  apply negb_false_iff in t, v.
  destruct (body_email body) as [e|] eqn:eb; [|discriminate t].
  exists e. unfold orElse in *. rewrite t in *. auto.
Qed.

Lemma nonempty_list {A} (l : list A) : (length l =? 0)%nat = false -> l <> [].
Proof. destruct l; [discriminate | discriminate]. Qed.

Lemma Server_signup_outcome (body : SignupBody) (now : Z) (w : World) :
  exists r w', Server.signup body now w = (Normal r, w')
               /\ signupOutcome body now w r w'.
Proof.
  unfold Server.signup, tryCatch, bind.
  destruct (negb (truthy (body_email body))
            || negb (isValidEmail (orElse (body_email body) ""))) eqn:bad.
  { eexists. eexists. split; [reflexivity|]. left. split; [discriminate|].
    reflexivity. }
  destruct (validated body bad) as [e [eb [-> ve]]].
  destruct (length (sanitizeInterests (body_interests body)) =? 0)%nat
    eqn:len.
  { eexists. eexists. split; [reflexivity|]. left. split; [discriminate|].
    reflexivity. }
  apply nonempty_list in len.
  unfold selectSingle, update, insert, request, Server.sendWelcomeEmail, send,
    tryCatch, bind, ret, throw.
  destruct (supabaseError (tick w)) eqn:up0;
    [|destruct (filter (fun r => email r =? e) (table w))
        as [|r0 [|r1 rs]] eqn:f];
    cbn [tick table queries outbox fst snd];
    destruct (supabaseError (S (tick w))) eqn:up1;
    try (eexists; eexists; split; [reflexivity|]; left;
         split; [discriminate | reflexivity]).
  - (* lookup at fault, then insert *)
    cbn [email newRow].
    destruct (existsb (fun r => email r =? e) (table w)) eqn:ex.
    + eexists. eexists. split; [reflexivity|]. left.
      split; [discriminate | reflexivity].
    + cbn [tick table queries outbox].
      destruct (resendThrows (S (S (tick w))));
        (eexists; eexists; split; [reflexivity|]); right; exists e;
        repeat (split; [assumption|]); right;
        (split; [now apply existsb_email_some | reflexivity]).
  - (* no row, then insert *)
    cbn [email newRow].
    destruct (existsb (fun r => email r =? e) (table w)) eqn:ex.
    + eexists. eexists. split; [reflexivity|]. left.
      split; [discriminate | reflexivity].
    + cbn [tick table queries outbox].
      destruct (resendThrows (S (S (tick w))));
        (eexists; eexists; split; [reflexivity|]); right; exists e;
        repeat (split; [assumption|]); right;
        (split; [now apply existsb_email_some | reflexivity]).
  - (* one row, then update *)
    eexists. eexists. split; [reflexivity|]. right. exists e.
    repeat (split; [assumption|]). left.
    split; [reflexivity|]. split; [|reflexivity].
    exact (filter_single_in e (table w) r0 f).
  - (* several rows, then insert *)
    cbn [email newRow].
    destruct (existsb (fun r => email r =? e) (table w)) eqn:ex.
    + eexists. eexists. split; [reflexivity|]. left.
      split; [discriminate | reflexivity].
    + cbn [tick table queries outbox].
      destruct (resendThrows (S (S (tick w))));
        (eexists; eexists; split; [reflexivity|]); right; exists e;
        repeat (split; [assumption|]); right;
        (split; [now apply existsb_email_some | reflexivity]).
Qed.

Lemma Handler_signup_outcome (body : SignupBody) (now : Z) (w : World) :
  exists r w', Signup.handler Signup.POST body now w = (Normal r, w')
               /\ signupOutcome body now w r w'.
Proof.
  unfold Signup.handler, tryCatch, bind.
  destruct (negb (truthy (body_email body))
            || negb (isValidEmail (orElse (body_email body) ""))) eqn:bad.
  { eexists. eexists. split; [reflexivity|]. left. split; [discriminate|].
    reflexivity. }
  destruct (validated body bad) as [e [eb [-> ve]]].
  destruct (length (sanitizeInterests (body_interests body)) =? 0)%nat
    eqn:len.
  { eexists. eexists. split; [reflexivity|]. left. split; [discriminate|].
    reflexivity. }
  apply nonempty_list in len.
  unfold selectSingle, update, insert, request, send,
    tryCatch, bind, ret, throw.
  destruct (supabaseError (tick w)) eqn:up0;
    [|destruct (filter (fun r => email r =? e) (table w))
        as [|r0 [|r1 rs]] eqn:f];
    cbn [tick table queries outbox fst snd];
    destruct (supabaseError (S (tick w))) eqn:up1;
    try (eexists; eexists; split; [reflexivity|]; left;
         split; [discriminate | reflexivity]).
  - (* lookup at fault, then insert *)
    cbn [email newRow].
    destruct (existsb (fun r => email r =? e) (table w)) eqn:ex.
    + eexists. eexists. split; [reflexivity|]. left.
      split; [discriminate | reflexivity].
    + cbn [tick table queries outbox].
      destruct (resendThrows (S (S (tick w))));
        (eexists; eexists; split; [reflexivity|]); right; exists e;
        repeat (split; [assumption|]); right;
        (split; [now apply existsb_email_some | reflexivity]).
  - (* no row, then insert *)
    cbn [email newRow].
    destruct (existsb (fun r => email r =? e) (table w)) eqn:ex.
    + eexists. eexists. split; [reflexivity|]. left.
      split; [discriminate | reflexivity].
    + cbn [tick table queries outbox].
      destruct (resendThrows (S (S (tick w))));
        (eexists; eexists; split; [reflexivity|]); right; exists e;
        repeat (split; [assumption|]); right;
        (split; [now apply existsb_email_some | reflexivity]).
  - (* one row, then update *)
    eexists. eexists. split; [reflexivity|]. right. exists e.
    repeat (split; [assumption|]). left.
    split; [reflexivity|]. split; [|reflexivity].
    exact (filter_single_in e (table w) r0 f).
  - (* several rows, then insert *)
    cbn [email newRow].
    destruct (existsb (fun r => email r =? e) (table w)) eqn:ex.
    + eexists. eexists. split; [reflexivity|]. left.
      split; [discriminate | reflexivity].
    + cbn [tick table queries outbox].
      destruct (resendThrows (S (S (tick w))));
        (eexists; eexists; split; [reflexivity|]); right; exists e;
        repeat (split; [assumption|]); right;
        (split; [now apply existsb_email_some | reflexivity]).
Qed.

End SignupOutcomes.

(** X6: a signup request with a body of ASCII text that fails
    validation (no email, an email [isValidEmail] refuses, or no
    interest left after sanitising) is answered 400 by both handlers
    and has no effect at all: no store request, no mail.  A request
    without a body is answered 500, again with no effect, and the
    serverless handler does nothing either for a method other than
    POST. *)
Theorem invalid_signup_has_no_effect {E : Env}
        (body : SignupBody) (now : Z) (w : World) :
  asciiBody body ->
  truthy (body_email body) = false
  \/ isValidEmail (orElse (body_email body) "") = false
  \/ sanitizeInterests (body_interests body) = [] ->
  (exists r, status r = 400
             /\ Server.receive (Some body) now w = (Normal r, w))
  /\ (exists r, status r = 400
                /\ Signup.receive Signup.POST (Some body) now w
                   = (Normal r, w))
  /\ (exists r, status r = 500
                /\ Server.receive None now w = (Normal r, w)
                /\ Signup.receive Signup.POST None now w = (Normal r, w))
  /\ (forall method reqBody,
         method <> Signup.POST ->
         exists r, status r <> 400 /\ status r <> 500
                   /\ Signup.receive method reqBody now w = (Normal r, w)).
Proof.
  intros _ h.
  split; [now apply Server_signup_invalid|].
  split; [now apply Handler_signup_invalid|].
  split; [eexists; repeat split; reflexivity|].
  intros method reqBody np. destruct method; [| now elim np |];
    eexists; (split; [|split; [|reflexivity]]); discriminate.
Qed.

Lemma invalid_signup_has_no_effect_witness :
  @asciiBody demoEnv refusedBody
  /\ @sanitizeInterests demoEnv (body_interests refusedBody) = []
  /\ exists r, status r = 400
               /\ @Signup.receive demoEnv Signup.POST (Some refusedBody) 5
                                  (world 0 [lost; anna])
                  = (Normal r, world 0 [lost; anna]).
Proof.
  assert (a : @asciiBody demoEnv refusedBody).
  { split; [|split].
    - intros s [= <-]. vm_compute. reflexivity.
    - intros l [= <-]. repeat constructor.
    - intros s [= <-]. vm_compute. reflexivity. }
  assert (none : @sanitizeInterests demoEnv (body_interests refusedBody) = [])
    by (vm_compute; reflexivity).
  split; [exact a|]. split; [exact none|].
  exact (proj1 (proj2 (@invalid_signup_has_no_effect demoEnv refusedBody 5
                         (world 0 [lost; anna]) a
                         (or_intror (or_intror none))))).
Defined.

(** X7: a validated signup for an email that no row has (compared as
    written, so a different case is a different email) inserts one row
    with the cleaned interests and timezone, as long as the store
    accepts the insert, and issues one welcome mail.  server.js then
    answers 200 whether or not the mail service throws; the serverless
    handler answers 500 when it throws, although the row is in the
    table. *)
Theorem first_signup_inserts {E : Env}
        (body : SignupBody) (e : string) (now : Z) (w : World) :
  body_email body = Some e ->
  isValidEmail e = true ->
  sanitizeInterests (body_interests body) <> [] ->
  ~ In e (map email (table w)) ->
  supabaseError (S (tick w)) = false ->
  let w' := {| tick := 3 + tick w;
               table := table w ++ [newRow body e now];
               queries := queries w
                          ++ [SelectSingle e; Insert (newRow body e now)];
               outbox := outbox w
                         ++ [Welcome e (sanitizeInterests
                                          (body_interests body))] |} in
  Server.signup body now w
  = (Normal {| status := 200; json := Message "Successfully subscribed!" |},
     w')
  /\ Signup.handler Signup.POST body now w
     = (Normal (if resendThrows (S (S (tick w)))
                then {| status := 500;
                        json := Error "Failed to subscribe. Please try again." |}
                else {| status := 200;
                        json := Message "Successfully subscribed!" |}),
        w').
Proof.
  intros eb ve ne ni up1 w'.
  assert (len : (length (sanitizeInterests (body_interests body)) =? 0)%nat
                = false).
  { destruct (sanitizeInterests (body_interests body));
      [now elim ne | reflexivity]. }
  assert (look : selectSingle e w
                 = (Normal (Failed (if supabaseError (tick w)
                                    then "service unavailable"
                                    else "PGRST116")),
                    {| tick := S (tick w); table := table w;
                       queries := queries w ++ [SelectSingle e];
                       outbox := outbox w |})).
  { unfold selectSingle, request. rewrite (filter_email_none e _ ni).
    destruct (supabaseError (tick w)); reflexivity. }
  unfold Server.signup, Signup.handler, Server.sendWelcomeEmail,
    tryCatch, bind.
  rewrite eb. unfold orElse.
  rewrite (valid_email_truthy e ve), ve, len. cbn [negb orb].
  rewrite look. unfold insert, request, send, ret.
  cbn [tick table queries outbox email]. rewrite up1.
  rewrite (existsb_email_none e _ ni). cbn [tick table queries outbox].
  unfold w', newRow. rewrite <- app_assoc. cbn [app].
  destruct (resendThrows (S (S (tick w)))); split; reflexivity.
Qed.

Lemma first_signup_inserts_witness :
  ~ In "Anna@example.org" (map email (table (world 0 [lost; anna])))
  /\ @Server.signup demoEnv caseBody 5 (world 0 [lost; anna])
     = (Normal {| status := 200; json := Message "Successfully subscribed!" |},
        {| tick := 3;
           table := [lost; anna;
                     {| email := "Anna@example.org"; interests := ["space"];
                        timezone := "America/New_York";
                        created_at := 5; updated_at := 5 |}];
           queries := [SelectSingle "Anna@example.org";
                       Insert {| email := "Anna@example.org";
                                 interests := ["space"];
                                 timezone := "America/New_York";
                                 created_at := 5; updated_at := 5 |}];
           outbox := [Welcome "Anna@example.org" ["space"]] |})
  /\ exists w',
      @Signup.handler bouncingEnv Signup.POST caseBody 5
                      (world 0 [lost; anna])
      = (Normal {| status := 500;
                   json := Error "Failed to subscribe. Please try again." |},
         w')
      /\ length (table w') = 3.
Proof.
  assert (ni : ~ In "Anna@example.org"
                 (map email (table (world 0 [lost; anna])))).
  { simpl. intros [h | [h | []]]; discriminate h. }
  assert (ne : forall E : Env,
             @toLowerCase E = asciiLower ->
             @sanitizeInterests E (body_interests caseBody) <> []).
  { intros E lower. unfold sanitizeInterests. rewrite lower.
    vm_compute. discriminate. }
  split; [exact ni|]. split.
  - exact (proj1 (@first_signup_inserts demoEnv caseBody "Anna@example.org"
                    5 (world 0 [lost; anna]) eq_refl eq_refl
                    (ne demoEnv eq_refl) ni eq_refl)).
  - eexists. split.
    + exact (proj2 (@first_signup_inserts bouncingEnv caseBody
                      "Anna@example.org" 5 (world 0 [lost; anna])
                      eq_refl eq_refl (ne bouncingEnv eq_refl) ni eq_refl)).
    + reflexivity.
Defined.

Section StoredRows.
Context {E : Env}.

Lemma updated_row_stored (body : SignupBody) (e : string) (now : Z)
      (t : list Subscriber) :
  In e (map email t) ->
  exists row, In row (updatedTable body e now t)
              /\ email row = e
              /\ interests row = sanitizeInterests (body_interests body)
              /\ timezone row = cleanTimezoneOf (body_timezone body).
Proof.
  intros i. apply in_map_iff in i. destruct i as [r0 [e0 i0]].
  exists (withPreferences (sanitizeInterests (body_interests body))
                          (cleanTimezoneOf (body_timezone body)) now r0).
  split; [|now split].
  unfold updatedTable. apply in_map_iff. exists r0. split; [|exact i0].
  apply String.eqb_eq in e0. now rewrite e0.
Qed.

Lemma stored_after_200 (body : SignupBody) (now : Z) (w : World)
      (r : HttpResponse) (w' : World) :
  signupOutcome body now w r w' -> status r = 200 ->
  exists e row, body_email body = Some e
                /\ In row (table w')
                /\ email row = e
                /\ interests row = sanitizeInterests (body_interests body)
                /\ timezone row = cleanTimezoneOf (body_timezone body).
Proof.
  intros [[no _] | [e [eb [_ [_ [[_ [i ->]] | [_ ->]]]]]]] ok.
  - contradiction.
  - destruct (updated_row_stored body e now (table w) i) as [row h].
    exists e, row. tauto.
  - exists e, (newRow body e now). split; [exact eb|].
    split; [apply in_or_app; right; now left|]. now split.
Qed.

Lemma cleanTimezoneOf_ascii (timezone : option string) :
  asciiField timezone -> isAscii (cleanTimezoneOf timezone) = true.
Proof.
  intros a. unfold cleanTimezoneOf, isAscii. apply sliceStr_allChars.
  unfold orElse. destruct timezone as [s|]; [|reflexivity].
  destruct (truthy (Some s)); [|reflexivity]. now apply a.
Qed.

Lemma cleanRow_new (body : SignupBody) (e : string) (now : Z) :
  asciiBody body -> body_email body = Some e ->
  isValidEmail e = true ->
  sanitizeInterests (body_interests body) <> [] ->
  cleanRow (newRow body e now).
Proof.
  intros [ae [_ at_]] eb ve ne. unfold cleanRow, newRow.
  cbn [email interests timezone].
  destruct (sanitizeInterests_clean (body_interests body)) as [le clean].
  split; [now apply ae|]. split; [exact ve|].
  split; [|split; [exact clean|split]].
  - destruct (sanitizeInterests (body_interests body));
      [now elim ne | simpl in *; lia].
  - now apply cleanTimezoneOf_ascii.
  - apply cleanTimezoneOf_length.
Qed.

Lemma cleanRow_updated (body : SignupBody) (e : string) (now : Z)
      (t : list Subscriber) :
  asciiBody body ->
  sanitizeInterests (body_interests body) <> [] ->
  Forall cleanRow t -> Forall cleanRow (updatedTable body e now t).
Proof.
  intros [_ [_ at_]] ne clean. unfold updatedTable. apply Forall_forall.
  intros row i. apply in_map_iff in i. destruct i as [r0 [<- i0]].
  rewrite Forall_forall in clean. specialize (clean r0 i0).
  destruct (email r0 =? e); [|exact clean].
  destruct clean as [ae [ve _]].
  destruct (sanitizeInterests_clean (body_interests body)) as [le tags].
  unfold cleanRow, withPreferences. cbn [email interests timezone].
  split; [exact ae|]. split; [exact ve|].
  split; [|split; [exact tags|split]].
  - destruct (sanitizeInterests (body_interests body));
      [now elim ne | simpl in *; lia].
  - now apply cleanTimezoneOf_ascii.
  - apply cleanTimezoneOf_length.
Qed.

Lemma table_stays_clean (body : SignupBody) (now : Z) (w : World)
      (r : HttpResponse) (w' : World) :
  asciiBody body ->
  signupOutcome body now w r w' ->
  Forall cleanRow (table w) -> NoDup (map email (table w)) ->
  Forall cleanRow (table w') /\ NoDup (map email (table w')).
Proof.
  intros a [[_ ->] | [e [eb [ve [ne [[_ [i ->]] | [ni ->]]]]]]] clean nd.
  - now split.
  - split; [now apply cleanRow_updated|].
    unfold updatedTable. now rewrite update_keeps_emails.
  - split.
    + apply Forall_app. split; [exact clean|].
      constructor; [now apply cleanRow_new | constructor].
    + rewrite map_app. cbn [map newRow email].
      apply NoDup_app; [exact nd | repeat constructor; intros [] |].
      intros x ix [<- | []]. contradiction.
Qed.

End StoredRows.

(** X8: when the signup route of server.js or the serverless handler
    answers a POST with 200, the request had a body and the table
    holds a row for its email with its sanitised interests and its
    cleaned timezone.  The 200 the serverless handler gives to an
    OPTIONS request stores nothing. *)
Theorem signup_ok_means_stored {E : Env}
        (reqBody : option SignupBody) (now : Z) (w : World)
        (r : HttpResponse) (w' : World) :
  Server.receive reqBody now w = (Normal r, w')
  \/ Signup.receive Signup.POST reqBody now w = (Normal r, w') ->
  status r = 200 ->
  (exists body e row,
      reqBody = Some body
      /\ body_email body = Some e
      /\ In row (table w')
      /\ email row = e
      /\ interests row = sanitizeInterests (body_interests body)
      /\ timezone row = cleanTimezoneOf (body_timezone body))
  /\ (forall anyBody,
         Signup.receive Signup.OPTIONS anyBody now w
         = (Normal {| status := 200; json := Empty |}, w)).
Proof.
  intros run ok. split; [|intros anyBody; reflexivity].
  destruct reqBody as [body|].
  - assert (out : signupOutcome body now w r w').
    { destruct run as [run | run].
      - destruct (Server_signup_outcome body now w) as [r0 [w0 [e0 out]]].
        unfold Server.receive in run. rewrite run in e0.
        now injection e0 as <- <-.
      - destruct (Handler_signup_outcome body now w) as [r0 [w0 [e0 out]]].
        unfold Signup.receive in run. rewrite run in e0.
        now injection e0 as <- <-. }
    destruct (stored_after_200 body now w r w' out ok) as [e [row h]].
    exists body, e, row. tauto.
  - destruct run as [run | run]; injection run as <- _; discriminate ok.
Qed.

Lemma signup_ok_means_stored_witness :
  exists w',
    @Server.receive demoEnv (Some repeatBody) 5 (world 0 [lost; anna])
    = (Normal {| status := 200;
                 json := Message "Preferences updated successfully!" |}, w')
    /\ exists row, In row (table w')
                   /\ email row = "anna@example.org"
                   /\ interests row = ["tech"; "good news"]
                   /\ timezone row = "Europe/Paris".
Proof.
  eexists. split; [vm_compute; reflexivity|].
  destruct (proj1 (@signup_ok_means_stored demoEnv (Some repeatBody) 5
                     (world 0 [lost; anna]) _ _
                     (or_introl eq_refl) eq_refl))
    as [body [e [row [eb [ee [i [er [ei et]]]]]]]].
  injection eb as <-. injection ee as <-.
  exists row. repeat split; assumption.
Defined.

(** X9: for requests of ASCII text, the signup handlers keep the table
    well formed.  If every row has a valid ASCII email, one to ten
    clean interest tags and an ASCII timezone of 1 to 50 characters,
    and no two rows share an email, the same holds after any signup
    request whose body, if it has one, is ASCII text, whatever the
    outcome of the request. *)
Theorem signup_keeps_table_clean {E : Env}
        (reqBody : option SignupBody) (now : Z) (w : World) :
  (forall body, reqBody = Some body -> asciiBody body) ->
  Forall cleanRow (table w) -> NoDup (map email (table w)) ->
  (exists r w', Server.receive reqBody now w = (Normal r, w')
                /\ Forall cleanRow (table w')
                /\ NoDup (map email (table w')))
  /\ (forall method, exists r w',
         Signup.receive method reqBody now w = (Normal r, w')
         /\ Forall cleanRow (table w')
         /\ NoDup (map email (table w'))).
Proof.
  intros a clean nd. destruct reqBody as [body|].
  - specialize (a body eq_refl). split.
    + destruct (Server_signup_outcome body now w) as [r [w' [run out]]].
      exists r, w'. split; [exact run|].
      exact (table_stays_clean body now w r w' a out clean nd).
    + intros [| |].
      * eexists. eexists. split; [reflexivity|]. now split.
      * destruct (Handler_signup_outcome body now w) as [r [w' [run out]]].
        exists r, w'. split; [exact run|].
        exact (table_stays_clean body now w r w' a out clean nd).
      * eexists. eexists. split; [reflexivity|]. now split.
  - split; [|intros [| |]];
      (eexists; eexists; split; [reflexivity|]; now split).
Qed.

Lemma signup_keeps_table_clean_witness :
  @asciiBody demoEnv caseBody
  /\ Forall cleanRow (table (world 0 [lost; anna]))
  /\ NoDup (map email (table (world 0 [lost; anna])))
  /\ exists r w',
      @Server.receive demoEnv (Some caseBody) 5 (world 0 [lost; anna])
      = (Normal r, w')
      /\ Forall cleanRow (table w')
      /\ NoDup (map email (table w')).
Proof.
  assert (a : forall body, Some caseBody = Some body ->
                           @asciiBody demoEnv body).
  { intros body [= <-]. split; [|split].
    - intros s [= <-]. vm_compute. reflexivity.
    - intros l [= <-]. repeat constructor.
    - intros s e. discriminate e. }
  assert (tag : forall i, (String.length i <=? 50)%nat
                          && (1 <=? String.length i)%nat
                          && allChars tagChar i = true -> cleanTag i).
  { intros i h. apply andb_true_iff in h. destruct h as [h ok].
    apply andb_true_iff in h. destruct h as [hi lo].
    apply Nat.leb_le in hi, lo. now repeat split. }
  assert (clean : Forall cleanRow (table (world 0 [lost; anna]))).
  { repeat constructor; try (apply tag; vm_compute; reflexivity);
      simpl; lia. }
  assert (nd : NoDup (map email (table (world 0 [lost; anna])))).
  { repeat constructor; simpl; intuition discriminate. }
  split; [exact (a caseBody eq_refl)|].
  split; [exact clean|]. split; [exact nd|].
  exact (proj1 (@signup_keeps_table_clean demoEnv (Some caseBody) 5
                  (world 0 [lost; anna]) a clean nd)).
Defined.

(** ** What [fetchGoodNews] returns *)

Section DigestFacts.
Context {E : Env}.

Lemma Server_harvestAll_small (tags : list string) :
  forall n, length (Server.harvestAll tags n) <= 2 * length tags
            /\ Forall (fun it => In (category it) tags)
                      (Server.harvestAll tags n).
Proof.
  induction tags as [|t tags IH]; intros n; simpl.
  - split; [lia | constructor].
  - destruct (Server_harvest_small t n) as [le cat].
    destruct (IH (S n)) as [les cats].
    split; [rewrite length_app; lia|].
    apply Forall_app. split.
    + apply Forall_impl with (2 := cat). intros it ->. now left.
    + apply Forall_impl with (2 := cats). intros it i. now right.
Qed.

Lemma Cron_harvestAll_small (tags : list string) :
  forall n, length (Cron.harvestAll tags n) <= 2 * length tags
            /\ Forall (fun it => In (category it) tags)
                      (Cron.harvestAll tags n).
Proof.
  induction tags as [|t tags IH]; intros n; simpl.
  - split; [lia | constructor].
  - destruct (Cron_harvest_small t n) as [le cat].
    destruct (IH (S n)) as [les cats].
    split; [rewrite length_app; lia|].
    apply Forall_app. split.
    + apply Forall_impl with (2 := cat). intros it ->. now left.
    + apply Forall_impl with (2 := cats). intros it i. now right.
Qed.

Lemma slice_length_min {A} (n : nat) (l : list A) :
  length (slice n l) = Nat.min n (length l).
Proof. unfold slice. apply length_firstn. Qed.

(** What passing the filter means for a candidate. *)
Lemma keep_true (a : Article) :
  keep a = true ->
  exists t d, title a = Some t /\ description a = Some d
              /\ t <> "" /\ d <> ""
              /\ hasPositive (textOf t d) = true
              /\ hasExcluded (textOf t d) (sourceOf a) = false.
Proof.
  unfold keep.
  destruct (title a) as [t|]; [|discriminate].
  destruct (description a) as [d|]; [|now rewrite orb_true_r].
  simpl. destruct (t =? "") eqn:et; [discriminate|].
  destruct (d =? "") eqn:ed; [discriminate|]. simpl.
  rewrite andb_true_iff, negb_true_iff. intros [hp he].
  apply String.eqb_neq in et, ed. exists t, d. auto 10.
Qed.

Lemma good_item (it : NewsItem) (a : Article) (interest : string) :
  keep a = true ->
  Server.toItem interest a = Normal it \/ Cron.toItem interest a = Normal it ->
  exists t d, item_title it = Some t /\ item_description it = Some d
              /\ t <> "" /\ d <> ""
              /\ hasPositive (textOf t d) = true
              /\ hasExcluded (textOf t d)
                             (toLowerCase (orElse (item_source it) ""))
                 = false.
Proof.
  intros ka built. destruct (keep_true a ka) as [t [d [et [ed h]]]].
  exists t, d. unfold sourceOf in h.
  unfold Server.toItem, Cron.toItem in built.
  destruct (source a) as [s|]; [|destruct built; discriminate].
  destruct built as [[= <-] | [= <-]]; simpl; tauto.
Qed.

End DigestFacts.

(** X10: [fetchGoodNews] never throws.  It makes one provider call for
    each of the first three interests and touches nothing else; it
    returns at most two items for each of them, so at most six, and the
    category of every item is one of these interests. *)
Theorem fetchGoodNews_bounds {E : Env} (interests : list string) (w : World) :
  (exists items,
      Server.fetchGoodNews interests w
      = (Normal items, advance (Nat.min 3 (length interests)) w)
      /\ length items <= 2 * Nat.min 3 (length interests)
      /\ length items <= 6
      /\ Forall (fun it => In (category it) (slice 3 interests)) items)
  /\ (exists items,
         Cron.fetchGoodNews interests w
         = (Normal items, advance (Nat.min 3 (length interests)) w)
         /\ length items <= 2 * Nat.min 3 (length interests)
         /\ length items <= 6
         /\ Forall (fun it => In (category it) (slice 3 interests)) items).
Proof.
  split.
  - exists (Server.harvestAll (slice 3 interests) (tick w)).
    rewrite Server_fetchGoodNews_run, slice_length_min.
    destruct (Server_harvestAll_small (slice 3 interests) (tick w))
      as [le cat].
    rewrite slice_length_min in le. repeat split; auto; lia.
  - exists (Cron.harvestAll (slice 3 interests) (tick w)).
    rewrite Cron_fetchGoodNews_run, slice_length_min.
    destruct (Cron_harvestAll_small (slice 3 interests) (tick w))
      as [le cat].
    rewrite slice_length_min in le. repeat split; auto; lia.
Qed.

(** X11: every item [fetchGoodNews] returns has a title and a
    description that are not empty, a positive keyword in its
    lower-cased text, and no exclusion keyword in that text or in its
    lower-cased source name. *)
Theorem digest_items_are_good_news {E : Env}
        (interests : list string) (w : World)
        (items : list NewsItem) (w' : World) (it : NewsItem) :
  Server.fetchGoodNews interests w = (Normal items, w')
  \/ Cron.fetchGoodNews interests w = (Normal items, w') ->
  In it items ->
  exists t d, item_title it = Some t /\ item_description it = Some d
              /\ t <> "" /\ d <> ""
              /\ hasPositive (textOf t d) = true
              /\ hasExcluded (textOf t d)
                             (toLowerCase (orElse (item_source it) ""))
                 = false.
Proof.
  intros [run | run] i.
  - rewrite Server_fetchGoodNews_run in run. injection run as <- _.
    destruct (Server_harvestAll_In _ _ _ i) as [t [l [its [eq i']]]].
    destruct (Server_item_origin _ _ _ _ eq i') as [a [_ [ka ea]]].
    apply good_item with a t; auto.
  - rewrite Cron_fetchGoodNews_run in run. injection run as <- _.
    destruct (Cron_harvestAll_In _ _ _ i) as [t [l [its [eq i']]]].
    destruct (Cron_item_origin _ _ _ _ eq i') as [a [_ [ka ea]]].
    apply good_item with a t; auto.
Qed.

Lemma digest_items_are_good_news_witness :
  @Server.fetchGoodNews demoEnv (interests anna) (world 0 [])
  = (Normal [reutersItem; blogItem], world 3 [])
  /\ exists t d, item_title reutersItem = Some t
                 /\ item_description reutersItem = Some d
                 /\ hasPositive (@textOf demoEnv t d) = true.
Proof.
  assert (run : @Server.fetchGoodNews demoEnv (interests anna) (world 0 [])
                = (Normal [reutersItem; blogItem], world 3 []))
    by (vm_compute; reflexivity).
  split; [exact run|].
  destruct (@digest_items_are_good_news demoEnv (interests anna)
              (world 0 []) _ _ reutersItem (or_introl run)
              (or_introl eq_refl))
    as [t [d [et [ed [_ [_ [hp _]]]]]]].
  exists t, d. auto.
Defined.

(** ** What server.js picks *)

Lemma partition_permutation {A} (p : A -> bool) (l : list A) :
  Permutation (filter p l ++ filter (fun a => negb (p a)) l) l.
Proof.
  induction l as [|x l IH]; simpl; [constructor|].
  destruct (p x); simpl.
  - now constructor.
  - symmetry. apply Permutation_cons_app. now symmetry.
Qed.

Lemma filter_none {A} (p : A -> bool) (l : list A) :
  Forall (fun a => p a = false) l -> filter p l = [].
Proof.
  induction 1 as [|x l px _ IH]; simpl; [reflexivity|]. now rewrite px.
Qed.

(** X12: in server.js the articles picked for an interest are the
    first two of: the trusted candidates that passed the filter, in
    fetch order, followed by the other candidates that passed, in
    fetch order.  Sorting only reorders what the filter kept, and when
    the kept candidates are all trusted or all untrusted server.js
    picks the same articles as the cron job. *)
Theorem server_picks_trusted_first {E : Env} (l : list Article) :
  let trusted := fun a => isTrusted (sourceOf a) in
  let kept := filter keep l in
  slice 2 (Server.goodArticles l)
  = slice 2 (filter trusted kept)
    ++ slice (2 - length (filter trusted kept))
             (filter (fun a => negb (trusted a)) kept)
  /\ Permutation (Server.goodArticles l) (Cron.goodArticles l)
  /\ (Forall (fun a => trusted a = true) kept
      \/ Forall (fun a => trusted a = false) kept ->
      Server.goodArticles l = Cron.goodArticles l).
Proof.
  intros trusted kept. unfold Server.goodArticles, Cron.goodArticles.
  fold kept.
  assert (sorted : sort Server.byTrust kept
                   = filter trusted kept
                     ++ filter (fun a => negb (trusted a)) kept)
    by exact (sort_byTrust kept).
  rewrite sorted.
  split; [apply firstn_app|].
  split; [apply partition_permutation|].
  intros [all | none].
  - rewrite (filter_fixed trusted kept all).
    rewrite (filter_none (fun a => negb (trusted a)) kept).
    + apply app_nil_r.
    + apply Forall_impl with (2 := all). intros a ->. reflexivity.
  - rewrite (filter_none trusted kept none).
    rewrite (filter_fixed (fun a => negb (trusted a)) kept).
    + reflexivity.
    + apply Forall_impl with (2 := none). intros a ->. reflexivity.
Qed.

(** ** One run of a scheduler *)

Section RunFacts.
Context {E : Env}.

Lemma harvest_at_most_six_server (interests : list string) (n : nat) :
  length (Server.harvestAll (slice 3 interests) n) <= 6.
Proof.
  destruct (Server_harvestAll_small (slice 3 interests) n) as [le _].
  pose proof (slice_length 3 interests). lia.
Qed.

Lemma harvest_at_most_six_cron (interests : list string) (n : nat) :
  length (Cron.harvestAll (slice 3 interests) n) <= 6.
Proof.
  destruct (Cron_harvestAll_small (slice 3 interests) n) as [le _].
  pose proof (slice_length 3 interests). lia.
Qed.

(** What one turn of the cron loop does: nothing for a subscriber who
    is not due; for one who is, the provider calls, and one send when
    there is news, counted when the send does not throw. *)
Lemma Cron_forSubscriber_step (now : Z) (n : nat) (s : Subscriber)
      (w : World) :
  exists n' w' mails,
    Cron.forSubscriber now n s w = (Normal n', w')
    /\ outbox w' = outbox w ++ mails
    /\ table w' = table w /\ queries w' = queries w
    /\ Forall (digestOf s) mails
    /\ length mails <= (if Server.isDue now s then 1 else 0)
    /\ n <= n' <= n + length mails
    /\ ((forall k, resendThrows k = false) -> n' = n + length mails)
    /\ tick w <= tick w' <= tick w + (if Server.isDue now s then 4 else 0).
Proof.
  rewrite Cron_forSubscriber_run, isDue_same.
  destruct (Server.isDue now s).
  - unfold tryCatch, Cron.deliver, bind.
    rewrite Cron_fetchGoodNews_run.
    pose proof (harvest_at_most_six_cron (interests s) (tick w)) as six.
    pose proof (slice_length 3 (interests s)) as three.
    set (news := Cron.harvestAll (slice 3 (interests s)) (tick w)) in *.
    destruct (0 <? length news)%nat eqn:some.
    + assert (digestOf s (Digest (email s) news (interests s))).
      { exists news. split; [|now split].
        intros ->. discriminate some. }
      unfold send, ret. cbn [tick table queries outbox advance].
      destruct (resendThrows _) eqn:th;
        (eexists; eexists; exists [Digest (email s) news (interests s)]);
        (split; [reflexivity|]); cbn [tick table queries outbox length];
        repeat split; auto; try lia.
      intros never. rewrite never in th. discriminate th.
    + exists n. eexists. exists []. split; [reflexivity|].
      cbn [tick table queries outbox advance length].
      rewrite app_nil_r. repeat split; auto; lia.
  - exists n, w, []. rewrite app_nil_r. repeat split; auto; lia.
Qed.

Lemma Server_sendDailyDigest_step (s : Subscriber) (w : World) :
  exists w' mails,
    Server.sendDailyDigest s w = (Normal tt, w')
    /\ outbox w' = outbox w ++ mails
    /\ table w' = table w /\ queries w' = queries w
    /\ Forall (digestOf s) mails
    /\ length mails <= 1
    /\ tick w <= tick w' <= tick w + 4.
Proof.
  unfold Server.sendDailyDigest, tryCatch, bind.
  rewrite Server_fetchGoodNews_run.
  pose proof (harvest_at_most_six_server (interests s) (tick w)) as six.
  pose proof (slice_length 3 (interests s)) as three.
  set (news := Server.harvestAll (slice 3 (interests s)) (tick w)) in *.
  destruct (length news =? 0)%nat eqn:none.
  - eexists. exists []. split; [reflexivity|].
    cbn [tick table queries outbox advance length].
    rewrite app_nil_r. repeat split; auto; lia.
  - assert (digestOf s (Digest (email s) news (interests s))).
    { exists news. split; [|now split].
      intros ->. discriminate none. }
    unfold send, ret. cbn [tick table queries outbox advance].
    destruct (resendThrows _);
      (eexists; exists [Digest (email s) news (interests s)]);
      (split; [reflexivity|]); cbn [tick table queries outbox length];
      repeat split; auto; lia.
Qed.

Lemma digestFor_cons (now : Z) (s : Subscriber) (subs : list Subscriber)
      (mails : list Email) :
  Forall (digestFor now subs) mails ->
  Forall (digestFor now (s :: subs)) mails.
Proof.
  apply Forall_impl. intros m [x [i h]]. exists x. split; [now right|exact h].
Qed.

Lemma digestFor_head (now : Z) (s : Subscriber) (subs : list Subscriber)
      (mails : list Email) :
  Server.isDue now s = true ->
  Forall (digestOf s) mails ->
  Forall (digestFor now (s :: subs)) mails.
Proof.
  intros due. apply Forall_impl. intros m h. exists s.
  split; [now left | now split].
Qed.

Lemma Cron_loop_step (now : Z) (subs : list Subscriber) :
  forall (n : nat) (w : World),
  exists n' w' mails,
    forOf subs (Cron.forSubscriber now) n w = (Normal n', w')
    /\ outbox w' = outbox w ++ mails
    /\ table w' = table w /\ queries w' = queries w
    /\ Forall (digestFor now subs) mails
    /\ length mails <= length (filter (Server.isDue now) subs)
    /\ n <= n' <= n + length mails
    /\ ((forall k, resendThrows k = false) -> n' = n + length mails)
    /\ tick w <= tick w'
       <= tick w + 4 * length (filter (Server.isDue now) subs).
Proof.
  induction subs as [|s subs IH]; intros n w.
  - exists n, w, []. rewrite app_nil_r. simpl.
    repeat split; auto; lia.
  - destruct (Cron_forSubscriber_step now n s w)
      as [n1 [w1 [m1 [run [ob [tb [qs [dg [len [cnt [ex tk]]]]]]]]]]].
    destruct (IH n1 w1)
      as [n2 [w2 [m2 [run2 [ob2 [tb2 [qs2 [dg2 [len2 [cnt2 [ex2 tk2]]]]]]]]]]].
    exists n2, w2, (m1 ++ m2).
    cbn [forOf]. unfold bind. rewrite run, run2.
    split; [reflexivity|].
    split; [rewrite ob2, ob; symmetry; apply app_assoc|].
    split; [congruence|]. split; [congruence|].
    cbn [filter]. rewrite length_app.
    destruct (Server.isDue now s) eqn:due; cbn [length];
      (split; [|split; [lia|]; split; [lia|];
                 split; [intros never; specialize (ex never);
                         specialize (ex2 never); lia | lia]]).
    + apply Forall_app. split;
        [now apply digestFor_head | now apply digestFor_cons].
    + assert (m1 = []) as -> by (destruct m1; [reflexivity | simpl in len; lia]).
      now apply digestFor_cons.
Qed.

Lemma Server_loop_step (now : Z) (subs : list Subscriber) :
  Forall (fun s => Server.isDue now s = true) subs ->
  forall (w : World),
  exists w' mails,
    forOf subs (fun _ s => Server.sendDailyDigest s) tt w = (Normal tt, w')
    /\ outbox w' = outbox w ++ mails
    /\ table w' = table w /\ queries w' = queries w
    /\ Forall (digestFor now subs) mails
    /\ length mails <= length subs
    /\ tick w <= tick w' <= tick w + 4 * length subs.
Proof.
  induction 1 as [|s subs due _ IH]; intros w.
  - exists w, []. rewrite app_nil_r. simpl. repeat split; auto; lia.
  - destruct (Server_sendDailyDigest_step s w)
      as [w1 [m1 [run [ob [tb [qs [dg [len tk]]]]]]]].
    destruct (IH w1) as [w2 [m2 [run2 [ob2 [tb2 [qs2 [dg2 [len2 tk2]]]]]]]].
    exists w2, (m1 ++ m2).
    cbn [forOf]. unfold bind. rewrite run, run2.
    split; [reflexivity|].
    split; [rewrite ob2, ob; symmetry; apply app_assoc|].
    split; [congruence|]. split; [congruence|].
    rewrite length_app. cbn [length].
    split; [|repeat split; lia].
    apply Forall_app. split;
      [now apply digestFor_head | now apply digestFor_cons].
Qed.

End RunFacts.

Section SchedulerRuns.
Context {E : Env}.

Lemma digestFor_filter (now : Z) (subs : list Subscriber)
      (mails : list Email) :
  Forall (digestFor now (filter (Server.isDue now) subs)) mails ->
  Forall (digestFor now subs) mails.
Proof.
  apply Forall_impl. intros m [s [i h]]. exists s.
  apply filter_In in i. tauto.
Qed.

Lemma filter_filter_length {A} (p : A -> bool) (l : list A) :
  length (filter p (filter p l)) = length (filter p l).
Proof.
  induction l as [|x l IH]; simpl; [reflexivity|].
  destruct (p x) eqn:px; simpl; [now rewrite px; simpl; rewrite IH | exact IH].
Qed.

Lemma Server_schedule_run (now : Z) (w : World) :
  exists w' mails,
    Server.schedule now w = (Normal tt, w')
    /\ outbox w' = outbox w ++ mails
    /\ table w' = table w
    /\ queries w' = queries w ++ [SelectAll]
    /\ Forall (digestFor now (table w)) mails
    /\ length mails <= length (filter (Server.isDue now) (table w))
    /\ tick w' <= tick w + 1
                  + 4 * length (filter (Server.isDue now) (table w)).
Proof.
  unfold Server.schedule, Server.getSubscribersForCurrentHour, bind,
    selectAll, request.
  destruct (supabaseError (tick w)).
  - eexists. exists []. split; [reflexivity|].
    cbn [tick table queries outbox length]. rewrite app_nil_r.
    repeat split; auto; lia.
  - unfold ret.
    set (w1 := {| tick := S (tick w); table := table w;
                  queries := queries w ++ [SelectAll];
                  outbox := outbox w |}).
    destruct (Server_loop_step now (filter (Server.isDue now) (table w))
                (filter_Forall (Server.isDue now) (table w)) w1)
      as [w2 [mails [run [ob [tb [qs [dg [len tk]]]]]]]].
    exists w2, mails. split; [exact run|].
    unfold w1 in *. cbn [tick table queries outbox] in *.
    repeat split; auto; try lia.
    now apply digestFor_filter.
Qed.

Lemma Cron_handler_run (now : Z) (w : World) :
  exists r w' mails,
    Cron.handler true now w = (Normal r, w')
    /\ outbox w' = outbox w ++ mails
    /\ table w' = table w
    /\ queries w' = queries w ++ [SelectAll]
    /\ Forall (digestFor now (table w)) mails
    /\ length mails <= length (filter (Server.isDue now) (table w))
    /\ tick w' <= tick w + 1
                  + 4 * length (filter (Server.isDue now) (table w))
    /\ (supabaseError (tick w) = false ->
        exists n, r = {| status := 200; json := DigestComplete n |}
                  /\ n <= length mails
                  /\ ((forall k, resendThrows k = false) ->
                      n = length mails)).
Proof.
  unfold Cron.handler, tryCatch, bind, selectAll, request. cbn [negb].
  destruct (supabaseError (tick w)).
  - eexists. eexists. exists []. split; [reflexivity|].
    cbn [tick table queries outbox length]. rewrite app_nil_r.
    repeat split; auto; try lia; try discriminate.
  - set (w1 := {| tick := S (tick w); table := table w;
                  queries := queries w ++ [SelectAll];
                  outbox := outbox w |}).
    destruct (Cron_loop_step now (table w) 0 w1)
      as [n [w2 [mails [run [ob [tb [qs [dg [len [cnt [ex tk]]]]]]]]]]].
    fold w1. change (table w1) with (table w). rewrite run. unfold ret.
    eexists. exists w2, mails. split; [reflexivity|].
    unfold w1 in *. cbn [tick table queries outbox] in *.
    repeat split; auto; try lia.
    exists n. split; [reflexivity|]. split; [lia|].
    intros never. rewrite (ex never). lia.
Qed.

End SchedulerRuns.

(** X13: when reading the subscribers fails, neither scheduler sends
    anything or asks the provider: the timer job of server.js ends
    normally and the cron handler answers 500 with the error of the
    store. *)
Theorem store_failure_sends_nothing {E : Env} (now : Z) (w : World) :
  supabaseError (tick w) = true ->
  let w' := {| tick := S (tick w); table := table w;
               queries := queries w ++ [SelectAll];
               outbox := outbox w |} in
  Server.schedule now w = (Normal tt, w')
  /\ Cron.handler true now w
     = (Normal {| status := 500; json := Error "service unavailable" |}, w').
Proof.
  intros down w'.
  unfold Server.schedule, Server.getSubscribersForCurrentHour,
    Cron.handler, tryCatch, bind, selectAll, request.
  cbn [negb]. rewrite down. split; reflexivity.
Qed.

Lemma store_failure_sends_nothing_witness :
  @supabaseError (outageEnv 0) (tick (world 0 [lost; anna])) = true
  /\ outbox (snd (@Server.schedule (outageEnv 0) 0 (world 0 [lost; anna])))
     = []
  /\ fst (@Cron.handler (outageEnv 0) true 0 (world 0 [lost; anna]))
     = Normal {| status := 500; json := Error "service unavailable" |}.
Proof.
  destruct (@store_failure_sends_nothing (outageEnv 0) 0
              (world 0 [lost; anna]) eq_refl) as [s c].
  split; [reflexivity|]. split; [now rewrite s | now rewrite c].
Defined.

(** X14: in one run, either scheduler sends digest mails only to
    subscribers of the table who are due, each mail with one to six
    items and never an empty one, and no more mails than there are due
    rows; it never throws and leaves the table as it is.  An
    unauthorised cron request has no effect. *)
Theorem mail_only_to_due_subscribers {E : Env} (now : Z) (w : World) :
  (exists w' mails,
      Server.schedule now w = (Normal tt, w')
      /\ outbox w' = outbox w ++ mails
      /\ table w' = table w
      /\ Forall (digestFor now (table w)) mails
      /\ length mails <= length (filter (Server.isDue now) (table w)))
  /\ (exists r w' mails,
         Cron.handler true now w = (Normal r, w')
         /\ outbox w' = outbox w ++ mails
         /\ table w' = table w
         /\ Forall (digestFor now (table w)) mails
         /\ length mails <= length (filter (Server.isDue now) (table w)))
  /\ Cron.handler false now w
     = (Normal {| status := 401; json := Error "Unauthorized" |}, w).
Proof.
  split; [|split; [|reflexivity]].
  - destruct (Server_schedule_run now w)
      as [w' [mails [run [ob [tb [_ [dg [len _]]]]]]]].
    exists w', mails. auto.
  - destruct (Cron_handler_run now w)
      as [r [w' [mails [run [ob [tb [_ [dg [len _]]]]]]]]].
    exists r, w', mails. auto.
Qed.

(** X15: when the store answers, the cron handler answers 200 with a
    count that is at most the number of digest mails it issued in this
    run, and exactly that number when no send throws. *)
Theorem sent_count_counts_mails {E : Env} (now : Z) (w : World) :
  supabaseError (tick w) = false ->
  exists n w' mails,
    Cron.handler true now w
    = (Normal {| status := 200; json := DigestComplete n |}, w')
    /\ outbox w' = outbox w ++ mails
    /\ n <= length mails
    /\ ((forall k, resendThrows k = false) -> n = length mails).
Proof.
  intros up.
  destruct (Cron_handler_run now w)
    as [r [w' [mails [run [ob [_ [_ [_ [_ [_ ok]]]]]]]]]].
  destruct (ok up) as [n [-> [le ex]]].
  exists n, w', mails. auto.
Qed.

Lemma sent_count_counts_mails_witness :
  @supabaseError morningEnv (tick (world 0 [lost; anna])) = false
  /\ exists w' news,
      @Cron.handler morningEnv true 0 (world 0 [lost; anna])
      = (Normal {| status := 200; json := DigestComplete 1 |}, w')
      /\ outbox w' = [Digest "anna@example.org" news (interests anna)]
      /\ length news = 6.
Proof.
  split; [reflexivity|].
  destruct (@sent_count_counts_mails morningEnv 0 (world 0 [lost; anna])
              eq_refl) as [n [w' [mails [run [ob [_ ex]]]]]].
  assert (one : length mails = 1).
  { vm_compute in run. injection run as _ <-. simpl in ob.
    subst mails. reflexivity. }
  rewrite (ex (fun _ => eq_refl)), one in run.
  exists w'. eexists. split; [exact run|].
  vm_compute in run. injection run as <-. split; reflexivity.
Defined.

(** X16: one run of either scheduler makes at most one store request,
    and at most four more external calls for each due row of the
    table: three provider calls and one send. *)
Theorem external_calls_bounded {E : Env} (now : Z) (w : World) :
  (exists w', Server.schedule now w = (Normal tt, w')
              /\ queries w' = queries w ++ [SelectAll]
              /\ tick w' <= tick w + 1
                 + 4 * length (filter (Server.isDue now) (table w)))
  /\ (exists r w', Cron.handler true now w = (Normal r, w')
                   /\ queries w' = queries w ++ [SelectAll]
                   /\ tick w' <= tick w + 1
                      + 4 * length (filter (Server.isDue now) (table w))).
Proof.
  split.
  - destruct (Server_schedule_run now w)
      as [w' [mails [run [_ [_ [qs [_ [_ tk]]]]]]]].
    exists w'. auto.
  - destruct (Cron_handler_run now w)
      as [r [w' [mails [run [_ [_ [qs [_ [_ [tk _]]]]]]]]]].
    exists r, w'. auto.
Qed.

(** ** Keywords inside keywords *)

Lemma prefix_split (kw s : string) :
  prefix kw s = true -> exists post, s = (kw ++ post)%string.
Proof.
  revert s. induction kw as [|c kw IH]; intros s h.
  - now exists s.
  - destruct s as [|x s]; [discriminate h|]. simpl in h.
    destruct (ascii_dec c x) as [<-|]; [|discriminate h].
    destruct (IH s h) as [post ->]. now exists post.
Qed.

(** [includes] is the substring test. *)
Lemma includes_split (s kw : string) :
  includes s kw = true
  <-> exists pre post, s = (pre ++ kw ++ post)%string.
Proof.
  split.
  - induction s as [|c s IH]; rewrite includes_unfold;
      destruct (prefix kw _) eqn:p; intros h.
    + apply prefix_split in p. destruct p as [post ->]. now exists "", post.
    + discriminate h.
    + apply prefix_split in p. destruct p as [post ->]. now exists "", post.
    + destruct (IH h) as [pre [post ->]]. now exists (String c pre), post.
  - intros [pre [post ->]]. apply includes_app.
Qed.

Lemma includes_inner (s outer pre inner post : string) :
  outer = (pre ++ inner ++ post)%string ->
  includes s outer = true -> includes s inner = true.
Proof.
  intros -> h. apply includes_split in h. destruct h as [a [b ->]].
  apply includes_split. exists (a ++ pre)%string, (post ++ b)%string.
  now rewrite !append_assoc.
Qed.

(** X17: the positive keyword "award" never lets a candidate through:
    a text that holds "award" holds the exclusion keyword "war", so the
    candidate is rejected, whatever its source. *)
Theorem award_never_qualifies {E : Env} (a : Article) (t d : string) :
  title a = Some t -> description a = Some d ->
  includes (textOf t d) "award" = true ->
  In "award" positiveKeywords
  /\ hasExcluded (textOf t d) (sourceOf a) = true
  /\ dropped a.
Proof.
  intros et ed aw.
  assert (war : includes (textOf t d) "war" = true)
    by exact (includes_inner _ "award" "a" "war" "d" eq_refl aw).
  assert (he : hasExcluded (textOf t d) (sourceOf a) = true).
  { unfold hasExcluded. apply some_true with "war".
    - do 13 right. left. reflexivity.
    - now rewrite war. }
  split; [do 15 right; left; reflexivity|].
  split; [exact he|].
  apply rejected_dropped. unfold keep. rewrite et, ed, he.
  destruct (negb (truthy (Some t)) || negb (truthy (Some d)));
    [reflexivity | apply andb_false_r].
Qed.

Lemma award_never_qualifies_witness :
  includes (@textOf demoEnv "Library wins award"
                    "Volunteers celebrate a milestone") "award" = true
  /\ isTrusted (@sourceOf demoEnv libraryAward) = true
  /\ @keep demoEnv libraryAward = false.
Proof.
  assert (aw : includes (@textOf demoEnv "Library wins award"
                                 "Volunteers celebrate a milestone")
                        "award" = true) by (vm_compute; reflexivity).
  split; [exact aw|]. split; [vm_compute; reflexivity|].
  destruct (@award_never_qualifies demoEnv libraryAward _ _
              eq_refl eq_refl aw) as [_ [_ dr]].
  exact (proj1 dr).
Defined.
